(** * DNS wire codec of app/dns/server.go: a shallow embedding

    The Go package [dns] holds a hand-written codec for DNS messages:
    [Packet.Serialize], [Packet.Deserialize] and their helpers
    [encodeDomainName], [decodeDomainName], [serializeQuestion],
    [serializeResourceRecord], [deserializeQuestion] and
    [deserializeResourceRecord].  This file embeds them as Rocq functions
    and states the properties of the specification about them.

    Conventions of the embedding.
    - [[]byte] is [list byte]; a Go [string] is a [string] (a sequence of
      8-bit characters); [string(b)] and [[]byte(s)] are the Standard
      Library's [string_of_list_byte] and [list_byte_of_string].
    - [int], [uint8], [uint16], [uint32] values are in [Z].  Unsigned
      arithmetic that can wrap is followed by its [mod].  An [int] is 64 bits
      wide; the offsets below stay under [len(data) + 256] or under [2^14],
      so no [int] operation of the codec wraps.
    - A function returning [(T, error)] returns a [result T]: [Ok], [Err]
      with the error of the source, [Panic] for a Go run-time panic (index
      out of range) and [Diverge] for a loop that has not finished within
      the fuel it was given. *)

From Stdlib Require Import ZArith List Bool Lia String Ascii.
From Stdlib Require Import Strings.Byte.
Import ListNotations.

Local Open Scope Z_scope.

(** ** Errors and results *)

(** The four [errors.New] messages of server.go. *)
Inductive error : Type :=
| PacketTooShort   (* "packet too short" *)
| BufferOverflow   (* "buffer overflow" *)
| TooManyJumps     (* "too many jumps" *)
| LabelTooLong.    (* "label too long" *)

Inductive result (A : Type) : Type :=
| Ok (a : A)
| Err (e : error)
| Panic
| Diverge.

Arguments Ok {A} a.
Arguments Err {A} e.
Arguments Panic {A}.
Arguments Diverge {A}.

Definition bind {A B : Type} (r : result A) (k : A -> result B) : result B :=
  match r with
  | Ok a => k a
  | Err e => Err e
  | Panic => Panic
  | Diverge => Diverge
  end.

Notation "x <- r ;; k" := (bind r (fun x => k))
  (at level 61, r at next level, right associativity).
Notation "' pat <- r ;; k" := (bind r (fun x => match x with pat => k end))
  (at level 61, pat pattern, r at next level, right associativity).

Definition is_ok {A : Type} (r : result A) : bool :=
  match r with Ok _ => true | _ => false end.

(** ** Bytes, slices and big-endian integers *)

Definition bytes := list byte.

(** [int(b)], [uint16(b)]: the numeric value of a byte. *)
Definition byte_val (b : byte) : Z := Z.of_N (Byte.to_N b).

(** [byte(v)]: conversion of an integer to a byte keeps the low 8 bits. *)
Definition byte_of_Z (v : Z) : byte :=
  match Byte.of_N (Z.to_N (v mod 256)) with
  | Some b => b
  | None => x00
  end.

(** [len(data)] *)
Definition len (data : bytes) : Z := Z.of_nat (List.length data).

(** [len(s)] for a string *)
Definition slen (s : string) : Z := Z.of_nat (String.length s).

(** [data[i]], read after the bounds check of the caller. *)
Definition index (data : bytes) (i : Z) : byte := nth (Z.to_nat i) data x00.

(** [data[lo:hi]] *)
Definition slice (data : bytes) (lo hi : Z) : bytes :=
  firstn (Z.to_nat (hi - lo)) (skipn (Z.to_nat lo) data).

(** [binary.BigEndian.Uint16(b)]: [uint16(b[1]) | uint16(b[0])<<8]. *)
Definition Uint16 (b : bytes) : Z :=
  Z.lor (byte_val (index b 1)) (Z.shiftl (byte_val (index b 0)) 8).

(** [binary.BigEndian.Uint32(b)] *)
Definition Uint32 (b : bytes) : Z :=
  Z.lor (Z.lor (Z.lor (byte_val (index b 3))
                      (Z.shiftl (byte_val (index b 2)) 8))
               (Z.shiftl (byte_val (index b 1)) 16))
        (Z.shiftl (byte_val (index b 0)) 24).

(** [binary.BigEndian.PutUint16(b, v)]: [b[0] = byte(v >> 8); b[1] = byte(v)]. *)
Definition PutUint16 (v : Z) : bytes :=
  [byte_of_Z (Z.shiftr v 8); byte_of_Z v].

(** [binary.BigEndian.PutUint32(b, v)] *)
Definition PutUint32 (v : Z) : bytes :=
  [byte_of_Z (Z.shiftr v 24); byte_of_Z (Z.shiftr v 16);
   byte_of_Z (Z.shiftr v 8); byte_of_Z v].

(** ** The data model *)

Record Header : Type := mkHeader {
  ID : Z;                (* uint16 *)
  QR : bool;
  OpCode : Z;            (* uint8 *)
  AA : bool;
  TC : bool;
  RD : bool;
  RA : bool;
  Zres : Z;              (* uint8, the field [Z] of the source *)
  ResponseCode : Z;      (* uint8 *)
  QuestionCount : Z;     (* uint16 *)
  AnswerCount : Z;       (* uint16 *)
  AuthorityCount : Z;    (* uint16 *)
  AdditionalCount : Z    (* uint16 *)
}.

Record Question : Type := mkQuestion {
  QName : string;
  QType : Z;             (* uint16 *)
  QClass : Z             (* uint16 *)
}.

Record ResourceRecord : Type := mkResourceRecord {
  Name : string;
  Type_ : Z;             (* uint16 *)
  Class : Z;             (* uint16 *)
  TTL : Z;               (* uint32 *)
  RDLength : Z;          (* uint16 *)
  RData : bytes
}.

Record Packet : Type := mkPacket {
  PHeader : Header;
  PQuestion : Question;
  Answer : list ResourceRecord;
  Authority : list ResourceRecord;
  Additional : list ResourceRecord
}.

(** [len(rrs)] for a section *)
Definition len_records (rrs : list ResourceRecord) : Z :=
  Z.of_nat (List.length rrs).

(** ** Domain names: decodeDomainName *)

(** The local variables of [decodeDomainName] that live across iterations
    of its [for] loop. *)
Record dstate : Type := mkDstate {
  offset : Z;
  jumps : Z;
  jumped : bool;
  name : string    (* the contents of the strings.Builder *)
}.

Definition maxJumps : Z := 5.

(** What one iteration of the loop does: return from the function, leave
    the loop through [break], or go round again. *)
Inductive iteration : Type :=
| Return (r : result (string * Z))
| Break (st : dstate)
| Next (st : dstate).

Definition decode_step (data : bytes) (st : dstate) : iteration :=
  if maxJumps <? jumps st then Return (Err TooManyJumps)
  else if len data <=? offset st then Return (Err BufferOverflow)
  else if offset st <? 0 then Return Panic
  else
    let length := byte_val (index data (offset st)) in
    if length =? 0 then
      Break (mkDstate (offset st + 1) (jumps st) (jumped st) (name st))
    else if Z.land length 0xC0 =? 0xC0 then
      if len data <=? offset st + 1 then Return (Err BufferOverflow)
      else
        let pointer :=
          Z.land (Uint16 (slice data (offset st) (offset st + 2))) 0x3FFF in
        (* if !jumped { offset += 2 } *)
        let offset1 := if negb (jumped st) then offset st + 2 else offset st in
        (* jumped = true; offset = pointer; jumps++ *)
        let offset2 := pointer in
        Next (mkDstate offset2 (jumps st + 1) true (name st))
    else
      let offset1 := offset st + 1 in
      if len data <? offset1 + length then Return (Err BufferOverflow)
      else
        let label := string_of_list_byte (slice data offset1 (offset1 + length)) in
        Next (mkDstate (offset1 + length) (jumps st) (jumped st)
                       (name st ++ label ++ "."))
.

(** The statements after the loop. *)
Definition decode_finish (st : dstate) : result (string * Z) :=
  if 0 <? slen (name st)
  then Ok (substring 0 (String.length (name st) - 1) (name st), offset st)
  else Ok ("."%string, offset st).

Fixpoint decode_loop (fuel : nat) (data : bytes) (st : dstate)
  : result (string * Z) :=
  match fuel with
  | O => Diverge
  | S fuel' =>
      match decode_step data st with
      | Return r => r
      | Break st' => decode_finish st'
      | Next st' => decode_loop fuel' data st'
      end
  end.

(** Iterations granted to the loop: seven passes over the buffer.
    [decodeDomainName_not_Diverge] shows the loop never needs more. *)
Definition decode_fuel (data : bytes) : nat := 7 * (List.length data + 1).

Definition decodeDomainName (data : bytes) (offset : Z) : result (string * Z) :=
  decode_loop (decode_fuel data) data (mkDstate offset 0 false EmptyString).

(** ** Domain names: encodeDomainName *)

(** [strings.Split(s, sep)] for a separator of one byte, the only use in
    server.go ([strings.Split(name, ".")]): the substrings between the
    separators, in order; a string without separator is returned whole, so
    the result is never empty. *)
Fixpoint Split (s : string) (sep : ascii) : list string :=
  match s with
  | EmptyString => [EmptyString]
  | String c rest =>
      if Ascii.eqb c sep then EmptyString :: Split rest sep
      else match Split rest sep with
           | l :: ls => String c l :: ls
           | [] => [String c EmptyString]
           end
  end.

(** The [for _, label := range labels] loop, [buf] being the buffer built
    so far. *)
Fixpoint encode_labels (labels : list string) (buf : bytes) : result bytes :=
  match labels with
  | [] => Ok buf
  | label :: rest =>
      if 63 <? slen label then Err LabelTooLong
      else encode_labels rest
             ((buf ++ [byte_of_Z (slen label)]) ++ list_byte_of_string label)
  end.

Definition encodeDomainName (name : string) : result bytes :=
  let labels := Split name "."%char in
  buf <- encode_labels labels [];;
  Ok (buf ++ [x00]).

(** ** Questions and resource records *)

Definition serializeQuestion (q : Question) : result bytes :=
  nameBytes <- encodeDomainName (QName q);;
  let buf := [] ++ nameBytes in
  let typeClassBytes := PutUint16 (QType q) ++ PutUint16 (QClass q) in
  Ok (buf ++ typeClassBytes).

Definition serializeResourceRecord (rr : ResourceRecord) : result bytes :=
  nameBytes <- encodeDomainName (Name rr);;
  let buf := [] ++ nameBytes in
  let rrBytes := PutUint16 (Type_ rr) ++ PutUint16 (Class rr)
                 ++ PutUint32 (TTL rr) ++ PutUint16 (RDLength rr) in
  let buf := buf ++ rrBytes in
  Ok (buf ++ RData rr).

Definition deserializeQuestion (data : bytes) (offset : Z)
  : result (Question * Z) :=
  '(qname, offset) <- decodeDomainName data offset;;
  if len data <? offset + 4 then Err PacketTooShort
  else
    let qtype := Uint16 (slice data offset (offset + 2)) in
    let qclass := Uint16 (slice data (offset + 2) (offset + 4)) in
    Ok (mkQuestion qname qtype qclass, offset + 4).

Definition deserializeResourceRecord (data : bytes) (offset : Z)
  : result (ResourceRecord * Z) :=
  '(rname, offset) <- decodeDomainName data offset;;
  if len data <? offset + 10 then Err PacketTooShort
  else
    let rtype := Uint16 (slice data offset (offset + 2)) in
    let rclass := Uint16 (slice data (offset + 2) (offset + 4)) in
    let ttl := Uint32 (slice data (offset + 4) (offset + 8)) in
    let rdlength := Uint16 (slice data (offset + 8) (offset + 10)) in
    let offset := offset + 10 in
    if len data <? offset + rdlength then Err PacketTooShort
    else
      let rdata := slice data offset (offset + rdlength) in
      Ok (mkResourceRecord rname rtype rclass ttl rdlength rdata,
          offset + rdlength).

(** ** Packets *)

(** The header part of [Serialize]: the 12 bytes of [headerBytes].  [flags]
    is a [uint16], so each shifted field is cut to 16 bits. *)
Definition header_flags (h : Header) : Z :=
  let flags := 0 in
  let flags := if QR h then Z.lor flags (Z.shiftl 1 15) else flags in
  let flags := Z.lor flags (Z.shiftl (OpCode h) 11 mod 2 ^ 16) in
  let flags := if AA h then Z.lor flags (Z.shiftl 1 10) else flags in
  let flags := if TC h then Z.lor flags (Z.shiftl 1 9) else flags in
  let flags := if RD h then Z.lor flags (Z.shiftl 1 8) else flags in
  let flags := if RA h then Z.lor flags (Z.shiftl 1 7) else flags in
  let flags := Z.lor flags (Z.shiftl (Zres h) 4 mod 2 ^ 16) in
  let flags := Z.lor flags (ResponseCode h) in
  flags.

Definition serializeHeader (h : Header) : bytes :=
  PutUint16 (ID h) ++ PutUint16 (header_flags h)
  ++ PutUint16 (QuestionCount h) ++ PutUint16 (AnswerCount h)
  ++ PutUint16 (AuthorityCount h) ++ PutUint16 (AdditionalCount h).

(** The three [for _, rr := range ...] loops of [Serialize]. *)
Fixpoint serializeRecords (rrs : list ResourceRecord) (buf : bytes)
  : result bytes :=
  match rrs with
  | [] => Ok buf
  | rr :: rest =>
      rrBytes <- serializeResourceRecord rr;;
      serializeRecords rest (buf ++ rrBytes)
  end.

Definition Serialize (p : Packet) : result bytes :=
  let buf := [] ++ serializeHeader (PHeader p) in
  questionBytes <- serializeQuestion (PQuestion p);;
  let buf := buf ++ questionBytes in
  buf <- serializeRecords (Answer p) buf;;
  buf <- serializeRecords (Authority p) buf;;
  buf <- serializeRecords (Additional p) buf;;
  Ok buf.

(** The header part of [Deserialize], after the length check. *)
Definition deserializeHeader (data : bytes) : Header :=
  let flags := Uint16 (slice data 2 4) in
  mkHeader
    (Uint16 (slice data 0 2))
    (negb (Z.land flags 0x8000 =? 0))
    (Z.land (Z.shiftr flags 11) 0xF mod 2 ^ 8)
    (negb (Z.land flags 0x0400 =? 0))
    (negb (Z.land flags 0x0200 =? 0))
    (negb (Z.land flags 0x0100 =? 0))
    (negb (Z.land flags 0x0080 =? 0))
    (Z.land (Z.shiftr flags 4) 0x7 mod 2 ^ 8)
    (Z.land flags 0xF mod 2 ^ 8)
    (Uint16 (slice data 4 6))
    (Uint16 (slice data 6 8))
    (Uint16 (slice data 8 10))
    (Uint16 (slice data 10 12)).

(** The loop [for i := uint16(0); i < count; i++] of [Deserialize] over one
    section, [n] being the iterations left; the records come back in wire
    order with the offset after the last one. *)
Fixpoint deserializeRecords (n : nat) (data : bytes) (offset : Z)
  : result (list ResourceRecord * Z) :=
  match n with
  | O => Ok ([], offset)
  | S n' =>
      '(rr, offset) <- deserializeResourceRecord data offset;;
      '(rrs, offset) <- deserializeRecords n' data offset;;
      Ok (rr :: rrs, offset)
  end.

(** [Deserialize] fills the packet it is called on; the embedding returns
    the packet on success.  On an error the source leaves the receiver
    partly filled and returns the error, which is all the embedding keeps. *)
Definition Deserialize (data : bytes) : result Packet :=
  if len data <? 12 then Err PacketTooShort
  else
    let header := deserializeHeader data in
    let offset := 12 in
    '(question, offset) <- deserializeQuestion data offset;;
    '(answer, offset) <-
      deserializeRecords (Z.to_nat (AnswerCount header)) data offset;;
    '(authority, offset) <-
      deserializeRecords (Z.to_nat (AuthorityCount header)) data offset;;
    '(additional, offset) <-
      deserializeRecords (Z.to_nat (AdditionalCount header)) data offset;;
    Ok (mkPacket header question answer authority additional).

(** * The decoder with the run-time checks of Go

    The run-time of Go checks every index expression [data[i]]
    ([0 <= i < len(data)]), every slice expression [data[lo:hi]]
    ([0 <= lo <= hi] and [hi] within the capacity, which is at least the
    length: the check modelled here, [hi <= len(data)], is the stricter
    one), and [binary.BigEndian.Uint16] and [Uint32] check that the slice
    they are given has 2 and 4 bytes; a failed check is a panic.  The
    functions of the decoding side are embedded a second time here, with
    every such expression of the source behind its check.  The embedding
    above reads through [index] and [slice], which are total;
    [Deserialize_chk_eq] shows that the two embeddings agree, so that
    none of the checks below ever fails. *)

(** [data[i]] *)
Definition index_chk (data : bytes) (i : Z) : result byte :=
  if (i <? 0) || (len data <=? i) then Panic else Ok (index data i).

(** [data[lo:hi]] *)
Definition slice_chk (data : bytes) (lo hi : Z) : result bytes :=
  if (lo <? 0) || (hi <? lo) || (len data <? hi) then Panic
  else Ok (slice data lo hi).

(** [s[:n]] for a string *)
Definition prefix_chk (s : string) (n : Z) : result string :=
  if (n <? 0) || (slen s <? n) then Panic
  else Ok (substring 0 (Z.to_nat n) s).

(** [binary.BigEndian.Uint16(b)], which starts with [_ = b[1]]. *)
Definition Uint16_chk (b : bytes) : result Z :=
  if len b <? 2 then Panic else Ok (Uint16 b).

(** [binary.BigEndian.Uint32(b)], which starts with [_ = b[3]]. *)
Definition Uint32_chk (b : bytes) : result Z :=
  if len b <? 4 then Panic else Ok (Uint32 b).

(** [binary.BigEndian.Uint16(data[lo:hi])] *)
Definition read16 (data : bytes) (lo hi : Z) : result Z :=
  b <- slice_chk data lo hi;; Uint16_chk b.

(** [binary.BigEndian.Uint32(data[lo:hi])] *)
Definition read32 (data : bytes) (lo hi : Z) : result Z :=
  b <- slice_chk data lo hi;; Uint32_chk b.

(** A checked read inside one pass of the loop of [decodeDomainName]. *)
Definition reading {A : Type} (r : result A) (k : A -> iteration)
  : iteration :=
  match r with
  | Ok a => k a
  | Err e => Return (Err e)
  | Panic => Return Panic
  | Diverge => Return Diverge
  end.

Definition decode_step_chk (data : bytes) (st : dstate) : iteration :=
  if maxJumps <? jumps st then Return (Err TooManyJumps)
  else if len data <=? offset st then Return (Err BufferOverflow)
  else
    reading (index_chk data (offset st)) (fun b =>
    let length := byte_val b in
    if length =? 0 then
      Break (mkDstate (offset st + 1) (jumps st) (jumped st) (name st))
    else if Z.land length 0xC0 =? 0xC0 then
      if len data <=? offset st + 1 then Return (Err BufferOverflow)
      else
        reading (read16 data (offset st) (offset st + 2)) (fun v =>
        let pointer := Z.land v 0x3FFF in
        Next (mkDstate pointer (jumps st + 1) true (name st)))
    else
      let offset1 := offset st + 1 in
      if len data <? offset1 + length then Return (Err BufferOverflow)
      else
        reading (slice_chk data offset1 (offset1 + length)) (fun b =>
        Next (mkDstate (offset1 + length) (jumps st) (jumped st)
                       (name st ++ string_of_list_byte b ++ ".")))).

Definition decode_finish_chk (st : dstate) : result (string * Z) :=
  if 0 <? slen (name st)
  then s <- prefix_chk (name st) (slen (name st) - 1);; Ok (s, offset st)
  else Ok ("."%string, offset st).

Fixpoint decode_loop_chk (fuel : nat) (data : bytes) (st : dstate)
  : result (string * Z) :=
  match fuel with
  | O => Diverge
  | S fuel' =>
      match decode_step_chk data st with
      | Return r => r
      | Break st' => decode_finish_chk st'
      | Next st' => decode_loop_chk fuel' data st'
      end
  end.

Definition decodeDomainName_chk (data : bytes) (offset : Z)
  : result (string * Z) :=
  decode_loop_chk (decode_fuel data) data (mkDstate offset 0 false EmptyString).

Definition deserializeQuestion_chk (data : bytes) (offset : Z)
  : result (Question * Z) :=
  '(qname, offset) <- decodeDomainName_chk data offset;;
  if len data <? offset + 4 then Err PacketTooShort
  else
    qtype <- read16 data offset (offset + 2);;
    qclass <- read16 data (offset + 2) (offset + 4);;
    Ok (mkQuestion qname qtype qclass, offset + 4).

Definition deserializeResourceRecord_chk (data : bytes) (offset : Z)
  : result (ResourceRecord * Z) :=
  '(rname, offset) <- decodeDomainName_chk data offset;;
  if len data <? offset + 10 then Err PacketTooShort
  else
    rtype <- read16 data offset (offset + 2);;
    rclass <- read16 data (offset + 2) (offset + 4);;
    ttl <- read32 data (offset + 4) (offset + 8);;
    rdlength <- read16 data (offset + 8) (offset + 10);;
    let offset := offset + 10 in
    if len data <? offset + rdlength then Err PacketTooShort
    else
      rdata <- slice_chk data offset (offset + rdlength);;
      Ok (mkResourceRecord rname rtype rclass ttl rdlength rdata,
          offset + rdlength).

(** The header part of [Deserialize]: six checked reads. *)
Definition deserializeHeader_chk (data : bytes) : result Header :=
  id <- read16 data 0 2;;
  flags <- read16 data 2 4;;
  qd <- read16 data 4 6;;
  an <- read16 data 6 8;;
  ns <- read16 data 8 10;;
  ar <- read16 data 10 12;;
  Ok (mkHeader id
        (negb (Z.land flags 0x8000 =? 0))
        (Z.land (Z.shiftr flags 11) 0xF mod 2 ^ 8)
        (negb (Z.land flags 0x0400 =? 0))
        (negb (Z.land flags 0x0200 =? 0))
        (negb (Z.land flags 0x0100 =? 0))
        (negb (Z.land flags 0x0080 =? 0))
        (Z.land (Z.shiftr flags 4) 0x7 mod 2 ^ 8)
        (Z.land flags 0xF mod 2 ^ 8)
        qd an ns ar).

(** The record loops of [Deserialize]; [&p.Answer[i]] indexes the slice
    made with [count] entries at an [i] below [count], the loop
    condition. *)
Fixpoint deserializeRecords_chk (n : nat) (data : bytes) (offset : Z)
  : result (list ResourceRecord * Z) :=
  match n with
  | O => Ok ([], offset)
  | S n' =>
      '(rr, offset) <- deserializeResourceRecord_chk data offset;;
      '(rrs, offset) <- deserializeRecords_chk n' data offset;;
      Ok (rr :: rrs, offset)
  end.

Definition Deserialize_chk (data : bytes) : result Packet :=
  if len data <? 12 then Err PacketTooShort
  else
    header <- deserializeHeader_chk data;;
    let offset := 12 in
    '(question, offset) <- deserializeQuestion_chk data offset;;
    '(answer, offset) <-
      deserializeRecords_chk (Z.to_nat (AnswerCount header)) data offset;;
    '(authority, offset) <-
      deserializeRecords_chk (Z.to_nat (AuthorityCount header)) data offset;;
    '(additional, offset) <-
      deserializeRecords_chk (Z.to_nat (AdditionalCount header)) data offset;;
    Ok (mkPacket header question answer authority additional).

(** * Vocabulary of the properties *)

(** The labels of a name, as [encodeDomainName] sees them. *)
Definition labels_of (nm : string) : list string := Split nm "."%char.

(** The bytes [encodeDomainName] emits for the labels: each label behind
    its length byte. *)
Fixpoint wire_labels (labels : list string) : bytes :=
  match labels with
  | [] => []
  | l :: ls => (byte_of_Z (slen l) :: list_byte_of_string l) ++ wire_labels ls
  end.

(** The builder of [decodeDomainName] after the labels [labels]: each
    label followed by a dot. *)
Fixpoint dotted (labels : list string) : string :=
  match labels with
  | [] => EmptyString
  | l :: ls => (l ++ "." ++ dotted ls)%string
  end.

(** The size of the encoded form of a name: a length byte and the bytes
    of each label, and the zero byte. *)
Definition wire_size (nm : string) : Z :=
  len (wire_labels (labels_of nm)) + 1.

(** The bit ranges the header fields are declared with. *)
Definition header_in_range (h : Header) : Prop :=
  0 <= ID h < 2 ^ 16 /\
  0 <= OpCode h < 16 /\ 0 <= Zres h < 8 /\ 0 <= ResponseCode h < 16 /\
  0 <= QuestionCount h < 2 ^ 16 /\ 0 <= AnswerCount h < 2 ^ 16 /\
  0 <= AuthorityCount h < 2 ^ 16 /\ 0 <= AdditionalCount h < 2 ^ 16.

(** The flags word as a sum of its fields in their bit positions. *)
Definition flags_sum (h : Header) : Z :=
  Z.b2z (QR h) * 2 ^ 15 + OpCode h * 2 ^ 11 + Z.b2z (AA h) * 2 ^ 10
  + Z.b2z (TC h) * 2 ^ 9 + Z.b2z (RD h) * 2 ^ 8 + Z.b2z (RA h) * 2 ^ 7
  + Zres h * 2 ^ 4 + ResponseCode h.

(** The wire format at an offset of the buffer: a compression pointer
    (two bytes in the buffer, the two high bits of the first set), or a
    label (a length byte that is neither zero nor a pointer byte, and the
    label bytes within the buffer), or the terminating zero byte. *)
Definition pointer_at (data : bytes) (o : Z) : bool :=
  (0 <=? o) && (o + 1 <? len data)
  && (Z.land (byte_val (index data o)) 0xC0 =? 0xC0).

Definition pointer_target (data : bytes) (o : Z) : Z :=
  Z.land (Uint16 (slice data o (o + 2))) 0x3FFF.

Definition label_at (data : bytes) (o : Z) : bool :=
  let l := byte_val (index data o) in
  (0 <=? o) && (o <? len data) && negb (l =? 0)
  && negb (Z.land l 0xC0 =? 0xC0) && (o + 1 + l <=? len data).

Definition zero_at (data : bytes) (o : Z) : bool :=
  (0 <=? o) && (o <? len data) && (byte_val (index data o) =? 0).

(** [chain data o k o']: reading a name from offset [o] passes over labels
    and follows [k] pointers, and is then at offset [o']. *)
Inductive chain (data : bytes) : Z -> nat -> Z -> Prop :=
| chain_here (o : Z) : chain data o 0 o
| chain_label (o : Z) (k : nat) (o' : Z) :
    label_at data o = true ->
    chain data (o + 1 + byte_val (index data o)) k o' ->
    chain data o k o'
| chain_pointer (o : Z) (k : nat) (o' : Z) :
    pointer_at data o = true ->
    chain data (pointer_target data o) k o' ->
    chain data o (S k) o'.

(** The builder is empty, or it is a string of labels of at most [n]
    bytes followed by a dot. *)
Definition builder_ok (n : Z) (b : string) : Prop :=
  b = EmptyString \/
  exists s, b = (s ++ ".")%string /\
            Forall (fun l => slen l <= n) (Split s "."%char).

(** The bounds a decoded name keeps: labels of at most 191 bytes, and
    fewer bytes than six times the buffer. *)
Definition name_bounded (data : bytes) (nm : string) : Prop :=
  Forall (fun l => slen l <= 191) (labels_of nm) /\
  slen nm < 6 * len data.

(** The invariant of the loop behind the bounds on a decoded name. *)
Definition name_inv (data : bytes) (st : dstate) : Prop :=
  builder_ok 191 (name st) /\ 0 <= jumps st /\
  slen (name st) <= jumps st * len data + Z.max 0 (offset st).

(** ** Vocabulary of the further properties *)

(** A name that [encodeDomainName] accepts: no label above 63 bytes. *)
Definition encodable (nm : string) : bool :=
  forallb (fun l => slen l <=? 63) (labels_of nm).

(** The wire form of a name: its labels, each behind its length byte, and
    the zero byte. *)
Definition wire_name (nm : string) : bytes :=
  wire_labels (labels_of nm) ++ [x00].

(** A name whose labels are all of 1 to 63 bytes. *)
Definition name_ok (nm : string) : Prop :=
  Forall (fun l => 1 <= slen l <= 63) (labels_of nm).

(** The builder is empty or holds at least one byte before its last dot. *)
Definition builder_filled (b : string) : Prop :=
  b = EmptyString \/ exists s, s <> EmptyString /\ b = (s ++ ".")%string.

(** The bytes [Serialize] writes for a question, for a resource record and
    for a packet, when it writes them: the wire form of the name, the
    fixed fields in big-endian order, and for a record the payload as it
    is stored. *)
Definition question_bytes (q : Question) : bytes :=
  wire_name (QName q) ++ PutUint16 (QType q) ++ PutUint16 (QClass q).

Definition record_bytes (rr : ResourceRecord) : bytes :=
  wire_name (Name rr) ++ PutUint16 (Type_ rr) ++ PutUint16 (Class rr)
  ++ PutUint32 (TTL rr) ++ PutUint16 (RDLength rr) ++ RData rr.

Definition records_bytes (rrs : list ResourceRecord) : bytes :=
  List.concat (map record_bytes rrs).

Definition packet_bytes (p : Packet) : bytes :=
  serializeHeader (PHeader p) ++ question_bytes (PQuestion p)
  ++ records_bytes (Answer p) ++ records_bytes (Authority p)
  ++ records_bytes (Additional p).

(** Every name of the packet is one [encodeDomainName] accepts. *)
Definition records_encodable (rrs : list ResourceRecord) : bool :=
  forallb (fun rr => encodable (Name rr)) rrs.

Definition packet_encodable (p : Packet) : bool :=
  encodable (QName (PQuestion p)) && records_encodable (Answer p)
  && records_encodable (Authority p) && records_encodable (Additional p).

(** The sizes on the wire. *)
Definition record_size (rr : ResourceRecord) : Z :=
  slen (Name rr) + 2 + 10 + len (RData rr).

Definition records_size (rrs : list ResourceRecord) : Z :=
  fold_right (fun rr n => record_size rr + n) 0 rrs.

Definition packet_size (p : Packet) : Z :=
  12 + (slen (QName (PQuestion p)) + 2 + 4) + records_size (Answer p)
  + records_size (Authority p) + records_size (Additional p).

(** Values of the declared widths, and the questions, records and packets
    made of them: names with labels of 1 to 63 bytes, RDLength the length
    of the payload, and the three record counts of the header the lengths
    of the sections. *)
Definition u16 (v : Z) : Prop := 0 <= v < 2 ^ 16.

Definition u32 (v : Z) : Prop := 0 <= v < 2 ^ 32.

Definition question_ok (q : Question) : Prop :=
  name_ok (QName q) /\ u16 (QType q) /\ u16 (QClass q).

Definition record_ok (rr : ResourceRecord) : Prop :=
  name_ok (Name rr) /\ u16 (Type_ rr) /\ u16 (Class rr) /\ u32 (TTL rr) /\
  u16 (RDLength rr) /\ RDLength rr = len (RData rr).

Definition packet_ok (p : Packet) : Prop :=
  header_in_range (PHeader p) /\ question_ok (PQuestion p) /\
  Forall record_ok (Answer p) /\ Forall record_ok (Authority p) /\
  Forall record_ok (Additional p) /\
  AnswerCount (PHeader p) = len_records (Answer p) /\
  AuthorityCount (PHeader p) = len_records (Authority p) /\
  AdditionalCount (PHeader p) = len_records (Additional p).

(** The outcomes of decoding: a value, or one of the three errors of the
    decoding side. *)
Definition decoded {A : Type} (r : result A) : Prop :=
  match r with
  | Ok _ => True
  | Err e => e = PacketTooShort \/ e = BufferOverflow \/ e = TooManyJumps
  | Panic => False
  | Diverge => False
  end.

(** The labels of a list before its first empty label, and the name a
    list of labels makes: the labels with dots between them, or "." when
    there is none. *)
Fixpoint leading (labels : list string) : list string :=
  match labels with
  | [] => []
  | l :: ls => if slen l =? 0 then [] else l :: leading ls
  end.

Definition name_of_labels (labels : list string) : string :=
  match labels with
  | [] => "."%string
  | _ :: _ => String.concat "." labels
  end.

(** Every name of the packet has labels of 1 to 63 bytes. *)
Definition names_ok (p : Packet) : Prop :=
  name_ok (QName (PQuestion p)) /\
  Forall (fun rr => name_ok (Name rr))
         (Answer p ++ Authority p ++ Additional p).

(** The fields of a record other than its name are within their widths,
    and RDLength is the length of the payload. *)
Definition record_fields_ok (rr : ResourceRecord) : Prop :=
  u16 (Type_ rr) /\ u16 (Class rr) /\ u32 (TTL rr) /\
  u16 (RDLength rr) /\ RDLength rr = len (RData rr).

(** * Concrete messages *)

(** A buffer written as the list of its byte values. *)
Definition hex (l : list Z) : bytes := map byte_of_Z l.

(** The name "a" at offset 0 and six pointers behind it, each to the one
    before: at 3 to 0, at 5 to 3, at 7 to 5, at 9 to 7, at 11 to 9 and at
    13 to 11. *)
Definition pointer_ladder : bytes :=
  hex [1; 0x61; 0;  0xC0; 0;  0xC0; 3;  0xC0; 5;  0xC0; 7;  0xC0; 9;
       0xC0; 11].

(** A pointer at offset 0 to the name "a" behind it, at offset 2. *)
Definition forward_pointer : bytes := hex [0xC0; 2;  1; 0x61; 0].

(** The name "com" at offset 0 and a pointer to it at offset 5. *)
Definition pointer_to_com : bytes := hex [3; 0x63; 0x6F; 0x6D; 0;  0xC0; 0].

(** A buffer holding one label of 64 bytes (length byte 0x40), and a
    buffer holding five labels of 63 bytes, 321 bytes with the zero
    byte. *)
Definition label_64 : bytes := hex [64] ++ repeat "a"%byte 64 ++ [x00].

Definition labels_5x63 : bytes :=
  List.concat (repeat (hex [63] ++ repeat "a"%byte 63) 5) ++ [x00].



(** A message with one answer declared: header, the question of "a", and
    an answer record for "a" that declares 4 bytes of payload and holds
    2. *)
Definition truncated_answer : bytes :=
  hex [0x12; 0x34;  0x81; 0x80;  0; 1;  0; 1;  0; 0;  0; 0;
       1; 0x61; 0;  0; 1;  0; 1;
       1; 0x61; 0;  0; 1;  0; 1;  0; 0; 1; 0x2C;  0; 4;  127; 0].

(** A complete response: header with one answer, the question of "a", and
    an answer record whose name is a pointer to offset 12, with type 1,
    class 1, TTL 300 and the 4 payload bytes 127.0.0.1. *)
Definition compressed_answer : bytes :=
  hex [0x12; 0x34;  0x81; 0x80;  0; 1;  0; 1;  0; 0;  0; 0;
       1; 0x61; 0;  0; 1;  0; 1;
       0xC0; 12;  0; 1;  0; 1;  0; 0; 1; 0x2C;  0; 4;  127; 0; 0; 1].

(** The response [compressed_answer] cut to 33 bytes: the answer record
    declares 4 bytes of payload at offsets 29 and 30, and 2 are left. *)
Definition cut_compressed_answer : bytes :=
  hex [0x12; 0x34;  0x81; 0x80;  0; 1;  0; 1;  0; 0;  0; 0;
       1; 0x61; 0;  0; 1;  0; 1;
       0xC0; 12;  0; 1;  0; 1;  0; 0; 1; 0x2C;  0; 4;  127; 0].

(** A response to a query for the address of example.com, with one
    answer. *)
Definition sample_response : Packet :=
  mkPacket (mkHeader 0x1234 true 0 false false true true 0 0 1 1 0 0)
           (mkQuestion "example.com" 1 1)
           [mkResourceRecord "example.com" 1 1 300 4 (hex [127; 0; 0; 1])]
           [] [].

(** * Properties *)

(** ** Bytes and lengths *)

Lemma byte_val_range (b : byte) : 0 <= byte_val b < 256.
Proof.
  unfold byte_val. pose proof (Byte.to_N_bounded b). lia.
Qed.

Lemma byte_val_of_Z (v : Z) : byte_val (byte_of_Z v) = v mod 256.
Proof.
  unfold byte_val, byte_of_Z.
  pose proof (Z.mod_pos_bound v 256 ltac:(lia)) as Hm.
  destruct (Byte.of_N (Z.to_N (v mod 256))) as [b|] eqn:E.
  - apply Byte.to_of_N in E. rewrite E. lia.
  - apply Byte.of_N_None_iff in E. lia.
Qed.

Lemma byte_val_of_Z_small (v : Z) : 0 <= v < 256 -> byte_val (byte_of_Z v) = v.
Proof.
  intros H. rewrite byte_val_of_Z. apply Z.mod_small. exact H.
Qed.

Lemma len_nonneg (data : bytes) : 0 <= len data.
Proof. unfold len. lia. Qed.

Lemma len_app (a b : bytes) : len (a ++ b) = len a + len b.
Proof. unfold len. rewrite length_app. lia. Qed.

Lemma len_cons (x : byte) (a : bytes) : len (x :: a) = 1 + len a.
Proof. unfold len. simpl List.length. lia. Qed.

Lemma len_nil : len [] = 0.
Proof. reflexivity. Qed.

Create Rewrite HintDb len.
#[local] Hint Rewrite len_app len_cons len_nil : len.

(** A pointer byte is one of value 192 or more; a byte below 64 is never
    one. *)
Lemma pointer_byte_test (b : byte) :
  (Z.land (byte_val b) 0xC0 =? 0xC0) = (192 <=? byte_val b).
Proof. destruct b; reflexivity. Qed.

Lemma pointer_byte_iff (b : byte) :
  Z.land (byte_val b) 0xC0 = 0xC0 <-> 192 <= byte_val b.
Proof.
  rewrite <- Z.eqb_eq, pointer_byte_test. apply Z.leb_le.
Qed.

(** ** decodeDomainName terminates *)

Ltac destruct_tests :=
  repeat match goal with
    | |- context [Z.ltb ?a ?b] => destruct (Z.ltb_spec a b)
    | |- context [Z.leb ?a ?b] => destruct (Z.leb_spec a b)
    | |- context [Z.eqb ?a ?b] => destruct (Z.eqb_spec a b)
    end.

(** What a pass of the loop that goes round again has done: followed a
    pointer (one more jump, a 14-bit offset) or consumed a label that lies
    within the buffer. *)
Lemma decode_step_Next (data : bytes) (st st' : dstate) :
  decode_step data st = Next st' ->
  jumps st <= maxJumps /\ 0 <= offset st < len data /\
  ((jumps st' = jumps st + 1 /\ 0 <= offset st' < 2 ^ 14
    /\ offset st + 1 < len data /\ name st' = name st)
   \/ (jumps st' = jumps st /\ offset st + 1 < offset st' <= len data
       /\ jumped st' = jumped st)).
Proof.
  unfold decode_step, maxJumps.
  pose proof (byte_val_range (index data (offset st))) as Hb.
  destruct_tests; intros Hs; try discriminate Hs; inversion Hs; subst st';
    cbn [jumps offset name jumped]; (split; [lia|split; [lia|]]).
  all: first
    [ right; repeat split; lia
    | left; repeat split; try lia;
      [ apply Z.land_nonneg; right; lia
      | change 0x3FFF with (Z.ones 14); rewrite Z.land_ones by lia;
        apply Z.mod_pos_bound; lia ] ].
Qed.

Lemma decode_step_not_Diverge (data : bytes) (st : dstate) :
  decode_step data st <> Return Diverge.
Proof.
  unfold decode_step. destruct_tests; discriminate.
Qed.

Lemma decode_finish_ok (st : dstate) :
  exists s, decode_finish st = Ok (s, offset st).
Proof.
  unfold decode_finish. destruct (0 <? slen (name st)); eexists; reflexivity.
Qed.

Section DecodeLoop.

Variable data : bytes.

(** The loop finishes within any fuel above the measure
    [(6 - jumps) * (len data + 1) + (len data - offset)]. *)
Lemma decode_loop_finishes :
  forall (fuel : nat) (st : dstate),
    (0 < fuel)%nat ->
    (jumps st <= maxJumps -> 0 <= offset st < len data ->
     (6 - jumps st) * (len data + 1) + (len data - offset st) < Z.of_nat fuel) ->
    decode_loop fuel data st <> Diverge.
Proof.
  induction fuel as [|fuel IH]; intros st Hpos Hm; [lia|].
  cbn [decode_loop].
  destruct (decode_step data st) as [r|st'|st'] eqn:E.
  - intros ->. exact (decode_step_not_Diverge _ _ E).
  - destruct (decode_finish_ok st') as [s ->]. discriminate.
  - apply decode_step_Next in E. unfold maxJumps in *.
    destruct E as (Hj & Ho & E).
    specialize (Hm Hj Ho).
    assert (Hk : (6 - (jumps st + 1)) * (len data + 1)
                 = (6 - jumps st) * (len data + 1) - (len data + 1)) by ring.
    assert (Hk0 : 0 <= (5 - jumps st) * (len data + 1)).
    { apply Z.mul_nonneg_nonneg; lia. }
    assert (Hk1 : (6 - jumps st) * (len data + 1)
                  = (5 - jumps st) * (len data + 1) + (len data + 1)) by ring.
    apply IH.
    + lia.
    + intros Hj' Ho'.
      destruct E as [(Ej & Eo & _) | (Ej & Eo & _)]; rewrite Ej.
      * rewrite Hk. lia.
      * lia.
Qed.

Lemma decodeDomainName_not_Diverge (o : Z) :
  decodeDomainName data o <> Diverge.
Proof.
  unfold decodeDomainName. apply decode_loop_finishes.
  - unfold decode_fuel. lia.
  - cbn [jumps offset]. intros _ Ho. unfold decode_fuel, len in *. lia.
Qed.

(** More fuel does not change a result. *)
Lemma decode_loop_mono :
  forall (n m : nat) (st : dstate),
    decode_loop n data st <> Diverge -> (n <= m)%nat ->
    decode_loop m data st = decode_loop n data st.
Proof.
  induction n as [|n IH]; intros m st Hd Hle.
  - exfalso. apply Hd. reflexivity.
  - destruct m as [|m]; [lia|]. cbn [decode_loop] in *.
    destruct (decode_step data st); try reflexivity.
    apply IH; [exact Hd | lia].
Qed.

(** So a result obtained with some fuel is the result of
    [decodeDomainName]. *)
Lemma decodeDomainName_of_loop (o : Z) (n : nat) (r : result (string * Z)) :
  decode_loop n data (mkDstate o 0 false EmptyString) = r -> r <> Diverge ->
  decodeDomainName data o = r.
Proof.
  intros Hr Hd. subst r. unfold decodeDomainName.
  destruct (Nat.le_ge_cases n (decode_fuel data)) as [Hle|Hle].
  - apply decode_loop_mono; assumption.
  - symmetry. apply decode_loop_mono; [|exact Hle].
    apply decodeDomainName_not_Diverge.
Qed.

(** The index panic needs a negative offset, and only the offset the
    caller passes can be negative. *)
Lemma decode_step_no_Panic (st : dstate) :
  0 <= offset st -> decode_step data st <> Return Panic.
Proof.
  unfold decode_step. intros Ho. destruct_tests; try discriminate. lia.
Qed.

Lemma decode_loop_no_Panic :
  forall (fuel : nat) (st : dstate),
    0 <= offset st -> decode_loop fuel data st <> Panic.
Proof.
  induction fuel as [|fuel IH]; intros st Ho; cbn [decode_loop].
  - discriminate.
  - destruct (decode_step data st) as [r|st'|st'] eqn:E.
    + intros ->. exact (decode_step_no_Panic _ Ho E).
    + destruct (decode_finish_ok st') as [s ->]. discriminate.
    + apply IH. apply decode_step_Next in E.
      destruct E as (_ & _ & [(_ & E & _) | (_ & E & _)]); lia.
Qed.

End DecodeLoop.

(** C2. [decodeDomainName] terminates on every buffer and every starting
    offset: the loop never exhausts its fuel, whatever the bytes are
    (pointer cycles included).  From an offset that is not negative the
    call returns a name with a cursor or one of the errors; a negative
    offset, which no caller passes, stops in an index panic. *)
Theorem decodeDomainName_total (data : bytes) (o : Z) :
  decodeDomainName data o <> Diverge /\
  (0 <= o ->
   (exists nm cur, decodeDomainName data o = Ok (nm, cur)) \/
   (exists e, decodeDomainName data o = Err e)).
Proof.
  split; [apply decodeDomainName_not_Diverge|].
  intros Ho.
  pose proof (decodeDomainName_not_Diverge data o) as Hd.
  assert (Hp : decodeDomainName data o <> Panic).
  { unfold decodeDomainName. apply decode_loop_no_Panic. exact Ho. }
  destruct (decodeDomainName data o) as [[nm cur]|e| |].
  - left. exists nm, cur. reflexivity.
  - right. exists e. reflexivity.
  - exfalso. apply Hp. reflexivity.
  - exfalso. apply Hd. reflexivity.
Qed.

(** ** Lists of bytes and strings *)

Lemma index_app_here (pre rest : bytes) (b : byte) :
  index (pre ++ b :: rest) (len pre) = b.
Proof.
  unfold index, len. rewrite Nat2Z.id. apply nth_middle.
Qed.

Lemma slice_app_here (pre mid rest : bytes) :
  slice (pre ++ mid ++ rest) (len pre) (len pre + len mid) = mid.
Proof.
  unfold slice, len.
  replace (Z.to_nat (Z.of_nat (List.length pre) + Z.of_nat (List.length mid)
                     - Z.of_nat (List.length pre)))
    with (List.length mid + 0)%nat by lia.
  rewrite Nat2Z.id, skipn_app, skipn_all, Nat.sub_diag. cbn [skipn app].
  rewrite firstn_app_2. cbn [firstn]. apply app_nil_r.
Qed.

Lemma string_length_append (s t : string) :
  String.length (s ++ t) = (String.length s + String.length t)%nat.
Proof.
  induction s as [|c s IH]; cbn [append String.length]; [reflexivity|].
  rewrite IH. reflexivity.
Qed.

Lemma string_append_assoc (s t u : string) :
  ((s ++ t) ++ u = s ++ (t ++ u))%string.
Proof.
  induction s as [|c s IH]; cbn [append]; [reflexivity|].
  rewrite IH. reflexivity.
Qed.

Lemma substring_prefix (s t : string) :
  substring 0 (String.length s) (s ++ t) = s.
Proof.
  induction s as [|c s IH]; cbn [append String.length substring].
  - destruct t; reflexivity.
  - rewrite IH. reflexivity.
Qed.

Lemma length_list_byte_of_string (s : string) :
  List.length (list_byte_of_string s) = String.length s.
Proof.
  unfold list_byte_of_string. rewrite length_map.
  induction s as [|c s IH]; cbn [list_ascii_of_string List.length String.length];
    [reflexivity|]. rewrite IH. reflexivity.
Qed.

Lemma len_list_byte_of_string (s : string) :
  len (list_byte_of_string s) = slen s.
Proof.
  unfold len, slen. rewrite length_list_byte_of_string. reflexivity.
Qed.

#[local] Hint Rewrite len_list_byte_of_string : len.

(** ** Splitting and joining on the dot *)

Lemma Split_not_nil (s : string) (sep : ascii) : Split s sep <> [].
Proof.
  destruct s as [|c s]; cbn [Split]; [discriminate|].
  destruct (Ascii.eqb c sep); [discriminate|].
  destruct (Split s sep); discriminate.
Qed.

Lemma dotted_Split (s : string) :
  dotted (Split s "."%char) = (s ++ ".")%string.
Proof.
  induction s as [|c s IH]; cbn [Split]; [reflexivity|].
  destruct (Ascii.eqb_spec c "."%char) as [->|Hc].
  - cbn [dotted append]. rewrite IH. reflexivity.
  - pose proof (Split_not_nil s "."%char) as Hn.
    destruct (Split s "."%char) as [|l ls]; [contradiction|].
    cbn [dotted append] in *. rewrite IH. reflexivity.
Qed.

Lemma encode_labels_ok (labels : list string) :
  forall buf : bytes,
    Forall (fun l => slen l <= 63) labels ->
    encode_labels labels buf = Ok (buf ++ wire_labels labels).
Proof.
  induction labels as [|l ls IH]; intros buf Hall; cbn [encode_labels wire_labels].
  - rewrite app_nil_r. reflexivity.
  - inversion Hall as [|? ? Hl Hls]; subst.
    destruct (Z.ltb_spec 63 (slen l)); [lia|].
    rewrite IH by exact Hls. rewrite <- !app_assoc. reflexivity.
Qed.

(** ** Decoding what was encoded *)

(** One pass of the loop over a length-prefixed label of 1 to 63 bytes
    that lies in the buffer after [pre]. *)
Lemma decode_step_label (pre rest : bytes) (l : string) (st : dstate) :
  1 <= slen l <= 63 -> offset st = len pre -> jumps st <= maxJumps ->
  decode_step (pre ++ (byte_of_Z (slen l) :: list_byte_of_string l) ++ rest) st
  = Next (mkDstate (len pre + 1 + slen l) (jumps st) (jumped st)
                   (name st ++ l ++ ".")).
Proof.
  intros Hl Ho Hj. unfold decode_step. rewrite Ho.
  cbn [app]. rewrite index_app_here, pointer_byte_test.
  rewrite byte_val_of_Z_small by lia.
  autorewrite with len.
  pose proof (len_nonneg pre) as Hp. pose proof (len_nonneg rest) as Hr.
  destruct_tests; try lia.
  replace (pre ++ byte_of_Z (slen l) :: list_byte_of_string l ++ rest)
    with ((pre ++ [byte_of_Z (slen l)]) ++ list_byte_of_string l ++ rest)
    by (rewrite <- app_assoc; reflexivity).
  replace (len pre + 1) with (len (pre ++ [byte_of_Z (slen l)]))
    by (rewrite len_app, len_cons; reflexivity).
  rewrite <- (len_list_byte_of_string l).
  rewrite slice_app_here, string_of_list_byte_of_string.
  reflexivity.
Qed.

(** One pass of the loop at the terminating zero byte. *)
Lemma decode_step_zero (pre rest : bytes) (st : dstate) :
  offset st = len pre -> jumps st <= maxJumps ->
  decode_step (pre ++ x00 :: rest) st
  = Break (mkDstate (len pre + 1) (jumps st) (jumped st) (name st)).
Proof.
  intros Ho Hj. unfold decode_step. rewrite Ho, index_app_here.
  autorewrite with len.
  pose proof (len_nonneg pre) as Hp. pose proof (len_nonneg rest) as Hr.
  change (byte_val x00) with 0.
  destruct_tests; reflexivity || lia.
Qed.

(** The loop over a run of such labels closed by the zero byte: it reads
    them all, follows no pointer and leaves through [break] just behind
    the zero byte. *)
Lemma decode_loop_labels (rest : bytes) (labels : list string) :
  forall (pre : bytes) (st : dstate),
    Forall (fun l => 1 <= slen l <= 63) labels ->
    offset st = len pre -> jumps st <= maxJumps ->
    decode_loop (S (List.length labels))
      (pre ++ wire_labels labels ++ x00 :: rest) st
    = decode_finish
        (mkDstate (len pre + len (wire_labels labels) + 1) (jumps st)
                  (jumped st) (name st ++ dotted labels)).
Proof.
  induction labels as [|l ls IH]; intros pre st Hall Ho Hj.
  - cbn [wire_labels app List.length decode_loop dotted].
    rewrite decode_step_zero by assumption.
    replace (name st ++ "")%string with (name st)
      by (clear; induction (name st) as [|c s IHs]; cbn [append];
          [reflexivity | rewrite <- IHs; reflexivity]).
    replace (len []) with 0 by reflexivity.
    rewrite Z.add_0_r. reflexivity.
  - inversion Hall as [|? ? Hl Hls]; subst.
    cbn [wire_labels List.length dotted].
    change (decode_loop (S (S (List.length ls))) ?d st)
      with (match decode_step d st with
            | Return r => r
            | Break st' => decode_finish st'
            | Next st' => decode_loop (S (List.length ls)) d st'
            end).
    rewrite <- (app_assoc _ (wire_labels ls) (x00 :: rest)).
    rewrite decode_step_label by assumption.
    rewrite (app_assoc pre).
    rewrite IH; cbn [offset jumps jumped name]; try assumption.
    + autorewrite with len. rewrite !string_append_assoc.
      do 2 f_equal. lia.
    + autorewrite with len. lia.
Qed.

(** C3, amended.  For every domain name whose labels are each 1 to 63
    bytes long, encoding it with [encodeDomainName] and decoding the
    result with [decodeDomainName] from offset 0 gives back the name, and
    the cursor is the length of the encoding. *)
Theorem encode_decode_roundtrip (nm : string) :
  Forall (fun l => 1 <= slen l <= 63) (labels_of nm) ->
  exists enc : bytes,
    encodeDomainName nm = Ok enc /\
    decodeDomainName enc 0 = Ok (nm, len enc).
Proof.
  intros Hall. unfold labels_of in Hall.
  exists (wire_labels (Split nm "."%char) ++ [x00]). split.
  - unfold encodeDomainName. rewrite encode_labels_ok.
    + reflexivity.
    + eapply Forall_impl; [|exact Hall]. cbn beta. intros l Hl. lia.
  - apply decodeDomainName_of_loop with (n := S (List.length (Split nm "."%char)));
      [|discriminate].
    change (wire_labels (Split nm "."%char) ++ [x00])
      with ([] ++ wire_labels (Split nm "."%char) ++ x00 :: []) at 1.
    rewrite decode_loop_labels; cbn [offset jumps jumped name];
      try assumption; try reflexivity; [|unfold maxJumps; lia].
    unfold decode_finish. cbn [name offset append].
    rewrite dotted_Split. unfold slen.
    rewrite string_length_append. cbn [String.length].
    destruct (Z.ltb_spec 0 (Z.of_nat (String.length nm + 1))); [|lia].
    replace (String.length nm + 1 - 1)%nat with (String.length nm) by lia.
    rewrite substring_prefix, len_app, len_cons.
    replace (len []) with 0 by reflexivity.
    do 2 f_equal.
Qed.

(** ** The header: bit packing *)

(** Or-ing a value into bits that are still clear adds it. *)
Lemma lor_add (a b n : Z) :
  0 <= n -> a mod 2 ^ n = 0 -> 0 <= b < 2 ^ n -> Z.lor a b = a + b.
Proof.
  intros Hn Ha Hb.
  assert (Hl : Z.land a b = 0); [|rewrite <- Z.lxor_lor, Z.add_nocarry_lxor; auto].
  apply Z.bits_inj'. intros i Hi.
  rewrite Z.land_spec, Z.bits_0.
  destruct (Z.lt_ge_cases i n) as [Hlt|Hge].
  - replace a with (a / 2 ^ n * 2 ^ n).
    + rewrite Z.mul_pow2_bits_low by lia. reflexivity.
    + pose proof (Z.div_mod a (2 ^ n) ltac:(lia)). lia.
  - rewrite <- (Z.mod_small b (2 ^ n)) by lia.
    rewrite Z.mod_pow2_bits_high by lia. apply andb_false_r.
Qed.

(** Testing one bit with a mask. *)
Lemma land_pow2_test (a k : Z) :
  0 <= k -> negb (Z.land a (2 ^ k) =? 0) = Z.testbit a k.
Proof.
  intros Hk. destruct (Z.testbit a k) eqn:E.
  - destruct (Z.eqb_spec (Z.land a (2 ^ k)) 0) as [H0|]; [|reflexivity].
    exfalso.
    assert (Hb : Z.testbit (Z.land a (2 ^ k)) k = true).
    { rewrite Z.land_spec, E, Z.pow2_bits_true by lia. reflexivity. }
    rewrite H0, Z.bits_0 in Hb. discriminate.
  - replace (Z.land a (2 ^ k)) with 0; [reflexivity|].
    symmetry. apply Z.bits_inj'. intros i Hi.
    rewrite Z.land_spec, Z.bits_0, Z.pow2_bits_eqb by lia.
    destruct (Z.eqb_spec k i) as [->|]; [rewrite E|]; auto using andb_false_r.
Qed.

Lemma testbit_b2z (a k : Z) (b : bool) :
  0 <= k -> (a / 2 ^ k) mod 2 = Z.b2z b -> Z.testbit a k = b.
Proof.
  intros Hk H. rewrite <- Z.testbit_spec' in H by exact Hk.
  destruct (Z.testbit a k), b; cbn in H; congruence.
Qed.

(** [Uint16] reads back what [PutUint16] wrote. *)
Lemma Uint16_PutUint16 (v : Z) :
  0 <= v < 2 ^ 16 ->
  Uint16 [byte_of_Z (Z.shiftr v 8); byte_of_Z v] = v.
Proof.
  intros Hv. unfold Uint16, index.
  change (Z.to_nat 1) with 1%nat. change (Z.to_nat 0) with 0%nat. cbn [nth].
  rewrite !byte_val_of_Z, Z.shiftl_mul_pow2, Z.shiftr_div_pow2 by lia.
  rewrite Z.lor_comm, (lor_add _ _ 8); try lia.
  - change (2 ^ 8) with 256 in *. change (2 ^ 16) with 65536 in *.
    pose proof (Z.div_mod v 256 ltac:(lia)).
    rewrite (Z.mod_small (v / 256) 256); [lia|].
    split; [apply Z.div_pos; lia | apply Z.div_lt_upper_bound; lia].
  - apply Z.mod_mul. lia.
  - change (2 ^ 8) with 256. apply Z.mod_pos_bound. lia.
Qed.

(** Side conditions on the bit positions: powers of two as numerals, then
    linear arithmetic with division by constants. *)
Ltac solve_pow :=
  cbn [Z.add Pos.add Pos.succ];
  change (2 ^ 16) with 65536 in *; change (2 ^ 15) with 32768 in *;
  change (2 ^ 11) with 2048 in *; change (2 ^ 10) with 1024 in *;
  change (2 ^ 9) with 512 in *; change (2 ^ 8) with 256 in *;
  change (2 ^ 7) with 128 in *; change (2 ^ 4) with 16 in *;
  change (2 ^ 3) with 8 in *;
  first [ lia | Z.div_mod_to_equations; lia ].

Lemma set_flag (b : bool) (flags k : Z) :
  0 <= k -> flags mod 2 ^ (k + 1) = 0 ->
  (if b then Z.lor flags (Z.shiftl 1 k) else flags) = flags + Z.b2z b * 2 ^ k.
Proof.
  intros Hk Hf. destruct b; cbn [Z.b2z]; [|lia].
  rewrite Z.shiftl_mul_pow2, Z.mul_1_l by lia.
  apply (lor_add _ _ (k + 1)); try lia.
  rewrite Z.pow_add_r by lia. pose proof (Z.pow_pos_nonneg 2 k). lia.
Qed.

Lemma header_flags_sum (h : Header) :
  header_in_range h -> header_flags h = flags_sum h.
Proof.
  intros (_ & Hop & Hz & Hrc & _). unfold header_flags, flags_sum.
  cbv zeta.
  assert (Hq : 0 <= Z.b2z (QR h) <= 1) by (destruct (QR h); cbn; lia).
  assert (Ha : 0 <= Z.b2z (AA h) <= 1) by (destruct (AA h); cbn; lia).
  assert (Ht : 0 <= Z.b2z (TC h) <= 1) by (destruct (TC h); cbn; lia).
  assert (Hd : 0 <= Z.b2z (RD h) <= 1) by (destruct (RD h); cbn; lia).
  assert (Hr : 0 <= Z.b2z (RA h) <= 1) by (destruct (RA h); cbn; lia).
  rewrite (Z.shiftl_mul_pow2 (OpCode h)), (Z.shiftl_mul_pow2 (Zres h)) by lia.
  rewrite (Z.mod_small (OpCode h * 2 ^ 11)) by solve_pow.
  rewrite (Z.mod_small (Zres h * 2 ^ 4)) by solve_pow.
  rewrite (set_flag (QR h) 0 15) by (reflexivity || lia).
  rewrite (lor_add _ (OpCode h * 2 ^ 11) 15) by solve_pow.
  rewrite (set_flag (AA h) _ 10) by solve_pow.
  rewrite (set_flag (TC h) _ 9) by solve_pow.
  rewrite (set_flag (RD h) _ 8) by solve_pow.
  rewrite (set_flag (RA h) _ 7) by solve_pow.
  rewrite (lor_add _ (Zres h * 2 ^ 4) 7) by solve_pow.
  rewrite (lor_add _ (ResponseCode h) 4) by solve_pow.
  reflexivity.
Qed.

Lemma flags_sum_range (h : Header) :
  header_in_range h -> 0 <= flags_sum h < 2 ^ 16.
Proof.
  intros (_ & Hop & Hz & Hrc & _). unfold flags_sum.
  destruct (QR h), (AA h), (TC h), (RD h), (RA h); cbn [Z.b2z]; solve_pow.
Qed.

(** Reading one flag bit back out of the flags word. *)
Lemma flags_sum_bit (h : Header) (k : Z) (b : bool) :
  header_in_range h -> 0 <= k ->
  (flags_sum h / 2 ^ k) mod 2 = Z.b2z b ->
  negb (Z.land (flags_sum h) (2 ^ k) =? 0) = b.
Proof.
  intros _ Hk H. rewrite land_pow2_test by exact Hk.
  apply testbit_b2z; assumption.
Qed.

(** [Deserialize] reads its header from the first twelve bytes. *)
Lemma deserializeHeader_bytes (a0 a1 a2 a3 a4 a5 a6 a7 a8 a9 a10 a11 : byte)
  (rest : bytes) :
  deserializeHeader
    (a0 :: a1 :: a2 :: a3 :: a4 :: a5 :: a6 :: a7 :: a8 :: a9 :: a10 :: a11
        :: rest)
  = let flags := Uint16 [a2; a3] in
    mkHeader (Uint16 [a0; a1])
      (negb (Z.land flags 0x8000 =? 0))
      (Z.land (Z.shiftr flags 11) 0xF mod 2 ^ 8)
      (negb (Z.land flags 0x0400 =? 0))
      (negb (Z.land flags 0x0200 =? 0))
      (negb (Z.land flags 0x0100 =? 0))
      (negb (Z.land flags 0x0080 =? 0))
      (Z.land (Z.shiftr flags 4) 0x7 mod 2 ^ 8)
      (Z.land flags 0xF mod 2 ^ 8)
      (Uint16 [a4; a5]) (Uint16 [a6; a7]) (Uint16 [a8; a9])
      (Uint16 [a10; a11]).
Proof. reflexivity. Qed.

(** C4. A header whose fields are within their bit ranges is packed by
    [Serialize] into 12 bytes from which [Deserialize] unpacks the same
    header, field by field. *)
Theorem header_roundtrip (h : Header) (rest : bytes) :
  header_in_range h ->
  len (serializeHeader h) = 12 /\
  deserializeHeader (serializeHeader h ++ rest) = h.
Proof.
  intros Hr. split; [reflexivity|].
  pose proof (flags_sum_range h Hr) as HF.
  pose proof (fun k b => flags_sum_bit h k b Hr) as Hbit.
  unfold serializeHeader, PutUint16. cbn [app].
  rewrite deserializeHeader_bytes. cbv zeta.
  rewrite !Uint16_PutUint16; rewrite ?header_flags_sum by exact Hr;
    try exact HF; try (destruct Hr as (? & ? & ? & ? & ? & ? & ? & ?);
                       assumption).
  change 0xF with (Z.ones 4). change 0x7 with (Z.ones 3).
  rewrite !Z.land_ones, !Z.shiftr_div_pow2 by lia.
  change 0x8000 with (2 ^ 15). change 0x0400 with (2 ^ 10).
  change 0x0200 with (2 ^ 9). change 0x0100 with (2 ^ 8).
  change 0x0080 with (2 ^ 7).
  assert (Hq : 0 <= Z.b2z (QR h) <= 1) by (destruct (QR h); cbn; lia).
  assert (Ha : 0 <= Z.b2z (AA h) <= 1) by (destruct (AA h); cbn; lia).
  assert (Ht : 0 <= Z.b2z (TC h) <= 1) by (destruct (TC h); cbn; lia).
  assert (Hd : 0 <= Z.b2z (RD h) <= 1) by (destruct (RD h); cbn; lia).
  assert (Ha' : 0 <= Z.b2z (RA h) <= 1) by (destruct (RA h); cbn; lia).
  destruct Hr as (_ & Hop & Hz & Hrc & _).
  rewrite (Hbit 15 (QR h)), (Hbit 10 (AA h)), (Hbit 9 (TC h)),
    (Hbit 8 (RD h)), (Hbit 7 (RA h));
    try lia; try (unfold flags_sum; solve_pow).
  replace ((flags_sum h / 2 ^ 11) mod 2 ^ 4 mod 2 ^ 8) with (OpCode h)
    by (unfold flags_sum; solve_pow).
  replace ((flags_sum h / 2 ^ 4) mod 2 ^ 3 mod 2 ^ 8) with (Zres h)
    by (unfold flags_sum; solve_pow).
  replace (flags_sum h mod 2 ^ 4 mod 2 ^ 8) with (ResponseCode h)
    by (unfold flags_sum; solve_pow).
  destruct h; reflexivity.
Qed.

(** ** Compression pointers *)

Ltac split_tests :=
  repeat match goal with
    | H : _ && _ = true |- _ => apply andb_true_iff in H; destruct H
    | H : negb _ = true |- _ => apply negb_true_iff in H
    | H : (_ <=? _) = true |- _ => apply Z.leb_le in H
    | H : (_ <=? _) = false |- _ => apply Z.leb_gt in H
    | H : (_ <? _) = true |- _ => apply Z.ltb_lt in H
    | H : (_ =? _) = true |- _ => apply Z.eqb_eq in H
    | H : (_ =? _) = false |- _ => apply Z.eqb_neq in H
    end.

(** A pass of the loop at a pointer: the 14-bit target becomes the read
    offset, whatever its position relative to the pointer; only the
    bounds of the two pointer bytes and the jump counter are tested. *)
Lemma decode_step_at_pointer (data : bytes) (st : dstate) :
  jumps st <= maxJumps -> pointer_at data (offset st) = true ->
  decode_step data st
  = Next (mkDstate (pointer_target data (offset st)) (jumps st + 1) true
                   (name st)).
Proof.
  unfold pointer_at, pointer_target, decode_step.
  rewrite !pointer_byte_test. intros Hj Hp. split_tests.
  destruct_tests; reflexivity || lia.
Qed.

Lemma decode_step_at_label (data : bytes) (st : dstate) :
  jumps st <= maxJumps -> label_at data (offset st) = true ->
  exists nm,
    decode_step data st
    = Next (mkDstate (offset st + 1 + byte_val (index data (offset st)))
                     (jumps st) (jumped st) nm).
Proof.
  unfold label_at, decode_step. cbv zeta.
  rewrite !pointer_byte_test. intros Hj Hp. split_tests.
  destruct_tests; try lia; eexists; reflexivity.
Qed.

Lemma decode_step_at_zero (data : bytes) (st : dstate) :
  jumps st <= maxJumps -> zero_at data (offset st) = true ->
  decode_step data st
  = Break (mkDstate (offset st + 1) (jumps st) (jumped st) (name st)).
Proof.
  unfold zero_at, decode_step.
  rewrite !pointer_byte_test. intros Hj Hp. split_tests.
  destruct_tests; reflexivity || lia.
Qed.

Lemma decode_step_too_many (data : bytes) (st : dstate) :
  maxJumps < jumps st -> decode_step data st = Return (Err TooManyJumps).
Proof.
  unfold decode_step. intros Hj. destruct_tests; reflexivity || lia.
Qed.

(** Following more than five pointers ends in "too many jumps". *)
Lemma chain_too_many (data : bytes) (o : Z) (k : nat) (o' : Z) :
  chain data o k o' ->
  forall st : dstate,
    offset st = o -> maxJumps < jumps st + Z.of_nat k ->
    exists fuel, decode_loop fuel data st = Err TooManyJumps.
Proof.
  induction 1 as [o | o k o' Hl _ IH | o k o' Hp _ IH]; intros st Ho Hk;
    (destruct (Z.lt_ge_cases maxJumps (jumps st)) as [Hj|Hj];
     [exists 1%nat; cbn [decode_loop];
      rewrite decode_step_too_many by exact Hj; reflexivity|]).
  - lia.
  - subst o. destruct (decode_step_at_label data st Hj Hl) as [nm E].
    destruct (IH (mkDstate (offset st + 1 + byte_val (index data (offset st)))
                           (jumps st) (jumped st) nm)) as [fuel Hf];
      [reflexivity | exact Hk |].
    exists (S fuel). cbn [decode_loop]. rewrite E. exact Hf.
  - subst o.
    destruct (IH (mkDstate (pointer_target data (offset st)) (jumps st + 1)
                           true (name st))) as [fuel Hf];
      [reflexivity | cbn [jumps]; lia |].
    exists (S fuel). cbn [decode_loop].
    rewrite decode_step_at_pointer by assumption. exact Hf.
Qed.

(** Following at most five pointers and reaching the zero byte succeeds,
    with the cursor just behind that zero byte. *)
Lemma chain_succeeds (data : bytes) (o : Z) (k : nat) (o' : Z) :
  chain data o k o' ->
  forall st : dstate,
    offset st = o -> jumps st + Z.of_nat k <= maxJumps ->
    zero_at data o' = true ->
    exists fuel nm, decode_loop fuel data st = Ok (nm, o' + 1).
Proof.
  induction 1 as [o | o k o' Hl _ IH | o k o' Hp _ IH]; intros st Ho Hk Hz;
    assert (Hj : jumps st <= maxJumps) by lia; subst o.
  - exists 1%nat. cbn [decode_loop].
    rewrite decode_step_at_zero by assumption.
    destruct (decode_finish_ok
                (mkDstate (offset st + 1) (jumps st) (jumped st) (name st)))
      as [nm E].
    exists nm. exact E.
  - destruct (decode_step_at_label data st Hj Hl) as [nm E].
    destruct (IH (mkDstate (offset st + 1 + byte_val (index data (offset st)))
                           (jumps st) (jumped st) nm)) as (fuel & nm' & Hf);
      [reflexivity | exact Hk | exact Hz |].
    exists (S fuel), nm'. cbn [decode_loop]. rewrite E. exact Hf.
  - destruct (IH (mkDstate (pointer_target data (offset st)) (jumps st + 1)
                           true (name st))) as (fuel & nm' & Hf);
      [reflexivity | cbn [jumps]; lia | exact Hz |].
    exists (S fuel), nm'. cbn [decode_loop].
    rewrite decode_step_at_pointer by assumption. exact Hf.
Qed.

(** C5. A name whose pointer chain needs more than five jumps fails with
    "too many jumps"; a name whose chain has five jumps (or fewer) and then
    reaches its zero byte decodes, the cursor being just behind that zero
    byte. *)
Theorem jump_limit (data : bytes) (o : Z) (k : nat) (o' : Z) :
  chain data o k o' ->
  ((5 < k)%nat -> decodeDomainName data o = Err TooManyJumps) /\
  ((k <= 5)%nat -> zero_at data o' = true ->
   exists nm, decodeDomainName data o = Ok (nm, o' + 1)).
Proof.
  intros Hc. split.
  - intros Hk.
    destruct (chain_too_many data o k o' Hc (mkDstate o 0 false EmptyString))
      as [fuel Hf]; [reflexivity | cbn [jumps]; unfold maxJumps; lia |].
    eapply decodeDomainName_of_loop; [exact Hf | discriminate].
  - intros Hk Hz.
    destruct (chain_succeeds data o k o' Hc (mkDstate o 0 false EmptyString))
      as (fuel & nm & Hf);
      [reflexivity | cbn [jumps]; unfold maxJumps; lia | exact Hz |].
    exists nm. eapply decodeDomainName_of_loop; [exact Hf | discriminate].
Qed.

(** ** What a decoded name looks like *)

Lemma length_string_of_list_byte (b : bytes) :
  String.length (string_of_list_byte b) = List.length b.
Proof.
  unfold string_of_list_byte.
  induction b as [|x b IH]; cbn [map string_of_list_ascii String.length List.length];
    [reflexivity|]. rewrite IH. reflexivity.
Qed.

Lemma len_slice (data : bytes) (lo hi : Z) :
  0 <= lo <= hi -> hi <= len data -> len (slice data lo hi) = hi - lo.
Proof.
  unfold len, slice. intros H1 H2.
  rewrite length_firstn, length_skipn. lia.
Qed.

(** An invariant of the loop holds where the loop breaks. *)
Lemma decode_loop_invariant (data : bytes) (I : dstate -> Prop) :
  (forall st st', I st -> decode_step data st = Next st' -> I st') ->
  forall (fuel : nat) (st : dstate) (r : string * Z),
    I st -> decode_loop fuel data st = Ok r ->
    exists st1 st2,
      I st1 /\ decode_step data st1 = Break st2 /\ decode_finish st2 = Ok r.
Proof.
  intros Hstep. induction fuel as [|fuel IH]; intros st r Hi Hr;
    cbn [decode_loop] in Hr; [discriminate|].
  destruct (decode_step data st) as [r'|st'|st'] eqn:E.
  - subst r'. exfalso. revert E. unfold decode_step.
    destruct_tests; discriminate.
  - exists st, st'. auto.
  - apply (IH st'); [eapply Hstep; eassumption | exact Hr].
Qed.

Lemma decode_step_Break (data : bytes) (st st' : dstate) :
  decode_step data st = Break st' ->
  jumps st <= maxJumps /\ 0 <= offset st < len data /\
  offset st' = offset st + 1 /\ name st' = name st.
Proof.
  unfold decode_step. destruct_tests; intros Hs; try discriminate Hs;
    inversion Hs; subst st'; cbn [offset name]; repeat split; lia.
Qed.

(** What a pass that goes round again does to the builder: nothing (a
    pointer), or it appends a label of at most 191 bytes and a dot, the
    offset moving by as much. *)
Lemma decode_step_Next_name (data : bytes) (st st' : dstate) :
  decode_step data st = Next st' ->
  name st' = name st \/
  exists x : string,
    name st' = (name st ++ x ++ ".")%string /\
    slen x <= 191 /\ offset st' = offset st + 1 + slen x.
Proof.
  unfold decode_step. rewrite pointer_byte_test.
  pose proof (byte_val_range (index data (offset st))) as Hb.
  destruct_tests; intros Hs; try discriminate Hs; inversion Hs; subst st';
    cbn [offset name]; auto.
  right. eexists. split; [reflexivity|].
  assert (Hl : slen (string_of_list_byte
                       (slice data (offset st + 1)
                          (offset st + 1 + byte_val (index data (offset st)))))
               = byte_val (index data (offset st))).
  { unfold slen. rewrite length_string_of_list_byte.
    fold (len (slice data (offset st + 1)
                 (offset st + 1 + byte_val (index data (offset st))))).
    rewrite len_slice; lia. }
  rewrite Hl. lia.
Qed.

Lemma Split_app_dot (s t : string) :
  Split (s ++ String "."%char t) "."%char
  = Split s "."%char ++ Split t "."%char.
Proof.
  induction s as [|c s IH]; cbn [append Split].
  - rewrite Ascii.eqb_refl. reflexivity.
  - rewrite IH. destruct (Ascii.eqb c "."%char); [reflexivity|].
    pose proof (Split_not_nil s "."%char) as Hn.
    destruct (Split s "."%char); [contradiction | reflexivity].
Qed.

(** No piece of a split string is longer than the string. *)
Lemma Split_length_le (s : string) (sep : ascii) :
  Forall (fun l => slen l <= slen s) (Split s sep).
Proof.
  unfold slen. induction s as [|c s IH]; cbn [Split String.length].
  - constructor; [reflexivity | constructor].
  - assert (IH' : Forall (fun l => Z.of_nat (String.length l)
                                   <= Z.of_nat (S (String.length s)))
                    (Split s sep)).
    { eapply Forall_impl; [|exact IH]. cbn beta. intros; lia. }
    destruct (Ascii.eqb c sep).
    + constructor; [cbn; lia | exact IH'].
    + destruct (Split s sep) as [|l ls]; [repeat constructor; cbn; lia|].
      inversion IH as [|? ? Hl Hls]; subst.
      inversion IH' as [|? ? _ Hls']; subst.
      constructor; [cbn [String.length]; lia | exact Hls'].
Qed.

Lemma builder_ok_append (n : Z) (b x : string) :
  builder_ok n b -> slen x <= n -> builder_ok n (b ++ x ++ ".").
Proof.
  intros Hb Hx. right.
  assert (Hsx : Forall (fun l => slen l <= n) (Split x "."%char)).
  { eapply Forall_impl; [|apply Split_length_le]. cbn beta. intros; lia. }
  destruct Hb as [->|(s & -> & Hs)].
  - exists x. split; [reflexivity | exact Hsx].
  - exists (s ++ "." ++ x)%string. split.
    + rewrite !string_append_assoc. reflexivity.
    + cbn [append]. rewrite Split_app_dot. apply Forall_app.
      split; assumption.
Qed.

Lemma name_inv_step (data : bytes) (st st' : dstate) :
  name_inv data st -> decode_step data st = Next st' -> name_inv data st'.
Proof.
  intros (Hb & Hj & Hn) E.
  pose proof (decode_step_Next _ _ _ E) as (Hj5 & Ho & Hcase).
  pose proof (decode_step_Next_name _ _ _ E) as Hname.
  pose proof (len_nonneg data) as HL.
  assert (Hmul : (jumps st + 1) * len data = jumps st * len data + len data)
    by ring.
  unfold name_inv.
  destruct Hname as [Hsame | (x & Hx & Hx191 & Hox)].
  - rewrite Hsame. split; [exact Hb|].
    destruct Hcase as [(Ej & Eo & _) | (Ej & Eo & _)]; rewrite Ej.
    + rewrite Hmul. lia.
    + lia.
  - rewrite Hx. split; [apply builder_ok_append; assumption|].
    unfold slen in *. rewrite !string_length_append. cbn [String.length].
    destruct Hcase as [(Ej & Eo & _) | (Ej & Eo & _)]; rewrite Ej.
    + rewrite Hmul. lia.
    + lia.
Qed.

(** The bounds the decoder does keep: labels of at most 191 bytes (a
    length byte is any byte below 192 that is not zero), and a name shorter
    than six times the buffer (the first pass and one pass for each of at
    most five jumps). *)
Lemma decode_loop_name_bounds (data : bytes) (o : Z) (nm : string) (cur : Z) :
  decodeDomainName data o = Ok (nm, cur) -> name_bounded data nm.
Proof.
  unfold decodeDomainName, name_bounded. intros Hd.
  apply (decode_loop_invariant data (name_inv data) (name_inv_step data))
    in Hd.
  - destruct Hd as (st1 & st2 & (Hb & Hj & Hn) & Hbr & Hfin).
    apply decode_step_Break in Hbr.
    destruct Hbr as (Hj5 & Ho & _ & Hname). unfold maxJumps in Hj5.
    unfold decode_finish in Hfin. rewrite Hname in Hfin.
    assert (HjL : jumps st1 * len data <= 5 * len data).
    { apply Z.mul_le_mono_nonneg_r; lia. }
    destruct (Z.ltb_spec 0 (slen (name st1))) as [Hpos|Hpos];
      inversion Hfin; subst nm cur; clear Hfin.
    + destruct Hb as [He|(s & Hs & Hall)].
      * rewrite He in Hpos. cbn in Hpos. lia.
      * rewrite Hs in *. unfold slen in *.
        rewrite string_length_append in *. cbn [String.length] in *.
        replace (String.length s + 1 - 1)%nat with (String.length s) by lia.
        rewrite substring_prefix. split; [exact Hall | lia].
    + split.
      * repeat constructor; cbn; lia.
      * change (slen ".") with 1. lia.
  - split; [left; reflexivity|]. cbn [jumps name offset].
    change (slen "") with 0. lia.
Qed.

(** ** Records and sections *)

Lemma Uint16_nonneg (b : bytes) : 0 <= Uint16 b.
Proof.
  unfold Uint16. apply Z.lor_nonneg. split.
  - apply byte_val_range.
  - apply Z.shiftl_nonneg. apply byte_val_range.
Qed.

Lemma decode_step_Break_zero (data : bytes) (st st' : dstate) :
  decode_step data st = Break st' -> zero_at data (offset st) = true.
Proof.
  unfold decode_step, zero_at.
  destruct_tests; intros Hs; try discriminate Hs; reflexivity || lia.
Qed.

(** The cursor of a decoded name lies in the buffer, just behind the zero
    byte that ended the name. *)
Lemma decodeDomainName_cursor_zero (data : bytes) (o : Z) (nm : string)
  (cur : Z) :
  decodeDomainName data o = Ok (nm, cur) -> zero_at data (cur - 1) = true.
Proof.
  unfold decodeDomainName. intros Hd.
  apply (decode_loop_invariant data (fun _ => True)) in Hd; auto.
  destruct Hd as (st1 & st2 & _ & Hbr & Hfin).
  pose proof (decode_step_Break_zero _ _ _ Hbr) as Hz.
  apply decode_step_Break in Hbr. destruct Hbr as (_ & _ & Ho' & _).
  unfold decode_finish in Hfin.
  destruct (0 <? slen (name st2)); inversion Hfin; subst;
    replace (offset st2 - 1) with (offset st1) by lia; exact Hz.
Qed.

Lemma decodeDomainName_cursor (data : bytes) (o : Z) (nm : string) (cur : Z) :
  decodeDomainName data o = Ok (nm, cur) -> 1 <= cur <= len data.
Proof.
  intros Hd. apply decodeDomainName_cursor_zero in Hd.
  unfold zero_at in Hd. split_tests. lia.
Qed.

(** So the position behind a pointer is the cursor only when the second
    byte of the pointer is zero: the cursor follows the name to where it
    ends, it does not stay behind the first pointer. *)
Lemma cursor_not_behind_pointer (data : bytes) (o : Z) (nm : string) :
  byte_val (index data (o + 1)) <> 0 ->
  decodeDomainName data o <> Ok (nm, o + 2).
Proof.
  intros Hb Hd. apply decodeDomainName_cursor_zero in Hd.
  unfold zero_at in Hd. split_tests.
  replace (o + 2 - 1) with (o + 1) in * by lia. contradiction.
Qed.

(** A record that [deserializeResourceRecord] returns carries as many
    payload bytes as its RDLength says, and the cursor moves forward. *)
Lemma deserializeResourceRecord_ok (data : bytes) (o : Z)
  (rr : ResourceRecord) (o' : Z) :
  deserializeResourceRecord data o = Ok (rr, o') ->
  len (RData rr) = RDLength rr /\ 11 <= o' <= len data.
Proof.
  unfold deserializeResourceRecord. intros H.
  destruct (decodeDomainName data o) as [[nm c]| | |] eqn:E;
    cbn [bind] in H; try discriminate H.
  apply decodeDomainName_cursor in E.
  pose proof (Uint16_nonneg (slice data (c + 8) (c + 10))) as Hrd.
  revert H. destruct_tests; intros Hd; try discriminate Hd.
  inversion Hd; subst rr o'; clear Hd. cbn [RData RDLength].
  split; [rewrite len_slice; lia | lia].
Qed.

Lemma deserializeRecords_ok (data : bytes) :
  forall (n : nat) (o : Z) (rrs : list ResourceRecord) (o' : Z),
    deserializeRecords n data o = Ok (rrs, o') ->
    List.length rrs = n /\
    Forall (fun rr => len (RData rr) = RDLength rr) rrs.
Proof.
  induction n as [|n IH]; intros o rrs o' H; cbn [deserializeRecords] in H.
  - inversion H; subst. split; [reflexivity | constructor].
  - destruct (deserializeResourceRecord data o) as [[rr o1]| | |] eqn:E1;
      cbn [bind] in H; try discriminate H.
    destruct (deserializeRecords n data o1) as [[rrs1 o2]| | |] eqn:E2;
      cbn [bind] in H; try discriminate H.
    inversion H; subst rrs o'; clear H.
    apply deserializeResourceRecord_ok in E1. apply IH in E2.
    destruct E1 as (E1 & _). destruct E2 as (E2 & E3).
    split; [cbn [List.length]; congruence | constructor; assumption].
Qed.

(** What a successful [Deserialize] has done, step by step. *)
Lemma Deserialize_ok (data : bytes) (p : Packet) :
  Deserialize data = Ok p ->
  12 <= len data /\ PHeader p = deserializeHeader data /\
  exists o1 o2 o3 o4,
    deserializeQuestion data 12 = Ok (PQuestion p, o1) /\
    deserializeRecords (Z.to_nat (AnswerCount (PHeader p))) data o1
    = Ok (Answer p, o2) /\
    deserializeRecords (Z.to_nat (AuthorityCount (PHeader p))) data o2
    = Ok (Authority p, o3) /\
    deserializeRecords (Z.to_nat (AdditionalCount (PHeader p))) data o3
    = Ok (Additional p, o4).
Proof.
  unfold Deserialize. cbv zeta.
  destruct (Z.ltb_spec (len data) 12) as [Hs|Hs]; intros H;
    [discriminate H|].
  destruct (deserializeQuestion data 12) as [[q o1]| | |];
    cbn [bind] in H; try discriminate H.
  destruct (deserializeRecords _ data o1) as [[an o2]| | |] eqn:E2;
    cbn [bind] in H; try discriminate H.
  destruct (deserializeRecords _ data o2) as [[au o3]| | |] eqn:E3;
    cbn [bind] in H; try discriminate H.
  destruct (deserializeRecords _ data o3) as [[ad o4]| | |] eqn:E4;
    cbn [bind] in H; try discriminate H.
  inversion H; subst p; clear H.
  cbn [PHeader PQuestion Answer Authority Additional].
  split; [exact Hs|]. split; [reflexivity|].
  exists o1, o2, o3, o4. auto.
Qed.



(** Every record of a decoded packet has a payload of RDLength bytes. *)
Lemma Deserialize_payload_lengths (data : bytes) (p : Packet) :
  Deserialize data = Ok p ->
  Forall (fun rr => len (RData rr) = RDLength rr)
         (Answer p ++ Authority p ++ Additional p).
Proof.
  intros H. apply Deserialize_ok in H.
  destruct H as (_ & _ & o1 & o2 & o3 & o4 & _ & Han & Hau & Had).
  apply deserializeRecords_ok in Han, Hau, Had.
  repeat (apply Forall_app; split); tauto.
Qed.

Lemma deserializeRecords_names (data : bytes) :
  forall (n : nat) (o : Z) (rrs : list ResourceRecord) (o' : Z),
    deserializeRecords n data o = Ok (rrs, o') ->
    Forall (fun rr => name_bounded data (Name rr)) rrs.
Proof.
  induction n as [|n IH]; intros o rrs o' H; cbn [deserializeRecords] in H.
  - inversion H; subst. constructor.
  - destruct (deserializeResourceRecord data o) as [[rr o1]| | |] eqn:E1;
      cbn [bind] in H; try discriminate H.
    destruct (deserializeRecords n data o1) as [[rrs1 o2]| | |] eqn:E2;
      cbn [bind] in H; try discriminate H.
    inversion H; subst rrs o'; clear H.
    constructor; [|eapply IH; exact E2].
    unfold deserializeResourceRecord in E1.
    destruct (decodeDomainName data o) as [[nm c]| | |] eqn:En;
      cbn [bind] in E1; try discriminate E1.
    apply decode_loop_name_bounds in En. revert E1.
    destruct_tests; intros E1; try discriminate E1.
    inversion E1; subst rr. exact En.
Qed.

(** C8, amended.  A name that [decodeDomainName] returns, and so the name
    of the question and of every record that [Deserialize] returns, has
    labels of at most 191 bytes each and is shorter than six times the
    buffer; the decoder enforces neither 63 bytes for a label nor 255 bytes
    for a name. *)
Theorem decoded_name_bounds :
  (forall (data : bytes) (o : Z) (nm : string) (cur : Z),
      decodeDomainName data o = Ok (nm, cur) -> name_bounded data nm) /\
  (forall (data : bytes) (p : Packet),
      Deserialize data = Ok p ->
      name_bounded data (QName (PQuestion p)) /\
      Forall (fun rr => name_bounded data (Name rr))
             (Answer p ++ Authority p ++ Additional p)).
Proof.
  split; [exact decode_loop_name_bounds|].
  intros data p H. apply Deserialize_ok in H.
  destruct H as (_ & _ & o1 & o2 & o3 & o4 & Hq & Han & Hau & Had).
  split.
  - unfold deserializeQuestion in Hq.
    destruct (decodeDomainName data 12) as [[nm c]| | |] eqn:En;
      cbn [bind] in Hq; try discriminate Hq.
    apply decode_loop_name_bounds in En. revert Hq.
    destruct_tests; intros Hq; try discriminate Hq.
    inversion Hq as [[Hp Ho]]. exact En.
  - apply deserializeRecords_names in Han, Hau, Had.
    repeat (apply Forall_app; split); assumption.
Qed.

(** A message whose first answer record is cut short: the question and
    the name and fixed fields of the record are there, and fewer bytes
    than its RDLength follow. *)
Lemma Deserialize_truncated (data : bytes) (q : Question) (o : Z)
  (nm : string) (c : Z) :
  12 <= len data ->
  AnswerCount (deserializeHeader data) = 1 ->
  deserializeQuestion data 12 = Ok (q, o) ->
  decodeDomainName data o = Ok (nm, c) ->
  c + 10 <= len data ->
  len data < c + 10 + Uint16 (slice data (c + 8) (c + 10)) ->
  Deserialize data = Err PacketTooShort.
Proof.
  intros Hlen Hcount Hq Hn Hfixed Htrunc.
  unfold Deserialize. cbv zeta.
  destruct (Z.ltb_spec (len data) 12); [lia|].
  rewrite Hq. cbn [bind]. rewrite Hcount.
  change (Z.to_nat 1) with 1%nat. cbn [deserializeRecords].
  unfold deserializeResourceRecord. rewrite Hn. cbn [bind].
  destruct (Z.ltb_spec (len data) (c + 10)); [lia|].
  destruct (Z.ltb_spec (len data)
              (c + 10 + Uint16 (slice data (c + 8) (c + 10)))); [|lia].
  reflexivity.
Qed.

(** The check of [deserializeResourceRecord] on the payload, taken where
    the code makes it: when fewer bytes are left behind the fixed fields
    than the RDLength read eight bytes behind the cursor of the name,
    [Deserialize] fails with "packet too short"; and a packet that
    [Deserialize] does return has, in every record, a payload of exactly
    the RDLength bytes read for that record.  For a name without pointers
    the cursor is the end of the name and this RDLength is the one on the
    wire; for a name that is a pointer it is not, as
    [cut_compressed_answer] shows. *)
Theorem truncated_rdata_fails :
  (forall (data : bytes) (q : Question) (o : Z) (nm : string) (c : Z),
      12 <= len data ->
      AnswerCount (deserializeHeader data) = 1 ->
      deserializeQuestion data 12 = Ok (q, o) ->
      decodeDomainName data o = Ok (nm, c) ->
      c + 10 <= len data ->
      len data < c + 10 + Uint16 (slice data (c + 8) (c + 10)) ->
      Deserialize data = Err PacketTooShort) /\
  (forall (data : bytes) (p : Packet),
      Deserialize data = Ok p ->
      Forall (fun rr => len (RData rr) = RDLength rr)
             (Answer p ++ Authority p ++ Additional p)).
Proof.
  split.
  - exact Deserialize_truncated.
  - exact Deserialize_payload_lengths.
Qed.

(** ** The scenarios of the specification *)

Example decode_pointer_ladder_5 :
  decodeDomainName pointer_ladder 11 = Ok ("a"%string, 3).
Proof. vm_compute. reflexivity. Qed.

Example decode_pointer_ladder_6 :
  decodeDomainName pointer_ladder 13 = Err TooManyJumps.
Proof. vm_compute. reflexivity. Qed.

(** A pointer to itself: followed six times, then refused. *)
Example decode_self_pointer :
  decodeDomainName (hex [0xC0; 0]) 0 = Err TooManyJumps.
Proof. vm_compute. reflexivity. Qed.

Example decode_forward_pointer :
  decodeDomainName forward_pointer 0 = Ok ("a"%string, 5).
Proof. vm_compute. reflexivity. Qed.

(** The scenarios of the specification. *)
Example decode_example_com :
  decodeDomainName
    (hex [7] ++ list_byte_of_string "example" ++ hex [3]
     ++ list_byte_of_string "com" ++ hex [0]) 0
  = Ok ("example.com"%string, 13).
Proof. vm_compute. reflexivity. Qed.

Example header_flags_8180 :
  header_flags (mkHeader 0 true 0 false false true true 0 0 0 0 0 0) = 0x8180.
Proof. reflexivity. Qed.

Example encode_label_63_64 :
  is_ok (encodeDomainName (string_of_list_byte (repeat "a"%byte 63))) = true /\
  encodeDomainName (string_of_list_byte (repeat "a"%byte 64)) = Err LabelTooLong.
Proof. split; vm_compute; reflexivity. Qed.

Example Deserialize_short :
  Deserialize (hex [0; 1; 2; 3; 4; 5; 6; 7; 8; 9; 10]) = Err PacketTooShort.
Proof. reflexivity. Qed.

(** C1. The cursor that [decodeDomainName] returns for a name that is a
    pointer is not the position behind the pointer: for the pointer at
    offset 5 of [pointer_to_com] it is 5, the position behind the zero
    byte of the target, where the specification has 5 + 2.  The assignment
    [offset = pointer] overwrites the [offset += 2] made just before it,
    and no other variable keeps the resume position. *)
Theorem resume_cursor_is_behind_target :
  decodeDomainName pointer_to_com 5 = Ok ("com"%string, 5) /\
  pointer_at pointer_to_com 5 = true /\
  decodeDomainName pointer_to_com 5 <> Ok ("com"%string, 5 + 2).
Proof.
  split; [vm_compute; reflexivity|]. split; [reflexivity|].
  vm_compute. discriminate.
Qed.

(** What the wrong cursor does to a record behind a compressed name: the
    fixed fields of the answer of [compressed_answer] are read from
    offset 15, inside the question, instead of offset 21. *)
Example Deserialize_compressed_answer :
  exists p,
    Deserialize compressed_answer = Ok p /\
    Answer p = [mkResourceRecord "a" 1 1 0xC00C0001 1 (hex [0])].
Proof. eexists. split; vm_compute; reflexivity. Qed.

(** C9. A response whose header declares one answer and whose buffer ends
    before the declared payload of the answer is not always refused:
    [cut_compressed_answer] holds 2 of the 4 payload bytes its answer
    record declares, and [Deserialize] returns a packet for it, with an
    answer of RDLength 1 and one payload byte, where the specification has
    "packet too short".  The name of the answer is a compression pointer,
    so the cursor behind it is 15 and not 21 (the slip of C1), and the
    fixed fields and the RDLength that is compared with the rest of the
    buffer are read from offsets 15 to 24, inside the question and the
    record's own name and type, instead of offsets 21 to 30. *)
Theorem truncated_compressed_answer_accepted :
  cut_compressed_answer = firstn 33 compressed_answer /\
  len cut_compressed_answer = 33 /\
  AnswerCount (deserializeHeader cut_compressed_answer) = 1 /\
  pointer_at cut_compressed_answer 19 = true /\
  Uint16 (slice cut_compressed_answer 29 31) = 4 /\
  decodeDomainName cut_compressed_answer 19 = Ok ("a"%string, 15) /\
  Deserialize cut_compressed_answer
  = Ok (mkPacket (mkHeader 0x1234 true 0 false false true true 0 0 1 1 0 0)
                 (mkQuestion "a" 1 1)
                 [mkResourceRecord "a" 1 1 0xC00C0001 1 (hex [0])] [] []).
Proof.
  repeat split; vm_compute; reflexivity.
Qed.

(** C6. [encodeDomainName] gives three zero bytes for the root name ".":
    [strings.Split] cuts it into two empty labels, each written as a
    length byte 0, and the terminator follows; the specification has the single
    byte 0. *)
Theorem encode_root_name :
  encodeDomainName "." = Ok [x00; x00; x00] /\
  encodeDomainName "." <> Ok [x00].
Proof.
  split; [reflexivity | discriminate].
Qed.

(** C10. A pass of the loop at a pointer whose two bytes are in the
    buffer moves the read offset to the 14-bit target, whatever the
    target is, before, at or behind the pointer: nothing but the bounds of
    the two bytes and the jump counter is tested.  So a name that is a
    pointer to a later offset decodes: [forward_pointer] does. *)
Theorem pointer_target_unrestricted :
  (forall (data : bytes) (st : dstate),
      jumps st <= maxJumps -> pointer_at data (offset st) = true ->
      decode_step data st
      = Next (mkDstate (pointer_target data (offset st)) (jumps st + 1) true
                       (name st))) /\
  (exists (data : bytes) (o : Z) (nm : string) (cur : Z),
      pointer_at data o = true /\ o < pointer_target data o /\
      decodeDomainName data o = Ok (nm, cur)).
Proof.
  split.
  - exact decode_step_at_pointer.
  - exists forward_pointer, 0, "a"%string, 5.
    split; [reflexivity|]. split; [reflexivity|].
    vm_compute. reflexivity.
Qed.

(** ** The claims at concrete inputs *)

Lemma decodeDomainName_total_witness :
  decodeDomainName (hex [0xC0; 0]) 0 <> Diverge /\
  ((exists nm cur, decodeDomainName (hex [0xC0; 0]) 0 = Ok (nm, cur)) \/
   (exists e, decodeDomainName (hex [0xC0; 0]) 0 = Err e)).
Proof.
  destruct (decodeDomainName_total (hex [0xC0; 0]) 0) as [Hd Hr].
  split; [exact Hd | apply Hr; lia].
Defined.

Lemma encode_decode_roundtrip_witness :
  exists enc : bytes,
    encodeDomainName "example.com" = Ok enc /\
    decodeDomainName enc 0 = Ok ("example.com"%string, len enc).
Proof.
  apply (encode_decode_roundtrip "example.com").
  repeat constructor; vm_compute; discriminate.
Defined.

(** The name "a..b" has three labels of at most 63 bytes, the second
    empty.  Its encoding is 01 61 00 01 62 00, which decodes to "a" with
    cursor 3: the length byte of the empty label is the terminator. *)
Lemma encode_decode_roundtrip_counterexample :
  ~ (forall nm : string,
        Forall (fun l => slen l <= 63) (labels_of nm) ->
        exists enc : bytes,
          encodeDomainName nm = Ok enc /\
          decodeDomainName enc 0 = Ok (nm, len enc)).
Proof.
  intros H. destruct (H "a..b"%string) as (enc & He & Hd).
  - repeat constructor; vm_compute; discriminate.
  - vm_compute in He. inversion He; subst enc.
    vm_compute in Hd. discriminate Hd.
Qed.

Lemma header_roundtrip_witness :
  len (serializeHeader
         (mkHeader 0x1234 true 2 false true true false 5 3 1 2 3 4)) = 12 /\
  deserializeHeader
    (serializeHeader
       (mkHeader 0x1234 true 2 false true true false 5 3 1 2 3 4) ++ [x00])
  = mkHeader 0x1234 true 2 false true true false 5 3 1 2 3 4.
Proof.
  apply (header_roundtrip
           (mkHeader 0x1234 true 2 false true true false 5 3 1 2 3 4) [x00]).
  unfold header_in_range. cbn. lia.
Defined.

Lemma jump_limit_witness :
  decodeDomainName pointer_ladder 13 = Err TooManyJumps /\
  exists nm, decodeDomainName pointer_ladder 11 = Ok (nm, 2 + 1).
Proof.
  split.
  - apply (proj1 (jump_limit pointer_ladder 13 6 0
                    ltac:(repeat (apply chain_pointer; [reflexivity|]);
                          exact (chain_here pointer_ladder 0)))).
    lia.
  - apply (proj2 (jump_limit pointer_ladder 11 5 2
                    ltac:(repeat (apply chain_pointer; [reflexivity|]);
                          apply chain_label; [reflexivity|];
                          exact (chain_here pointer_ladder 2)))).
    + lia.
    + reflexivity.
Defined.

Lemma decoded_name_bounds_counterexample :
  ~ (forall (data : bytes) (o : Z) (nm : string) (cur : Z),
        decodeDomainName data o = Ok (nm, cur) ->
        Forall (fun l => slen l <= 63) (labels_of nm) /\ wire_size nm <= 255).
Proof.
  intros H.
  destruct (H label_64 0 (string_of_list_byte (repeat "a"%byte 64)) 66)
    as [Hl _].
  - vm_compute. reflexivity.
  - inversion Hl as [|? ? Hl1 _]. vm_compute in Hl1. apply Hl1. reflexivity.
Qed.

Example decode_labels_5x63 :
  exists nm cur,
    decodeDomainName labels_5x63 0 = Ok (nm, cur) /\ wire_size nm = 321.
Proof.
  eexists. eexists. split; [vm_compute; reflexivity|]. vm_compute. reflexivity.
Qed.

Lemma decoded_name_bounds_witness :
  name_bounded label_64 (string_of_list_byte (repeat "a"%byte 64)).
Proof.
  apply (proj1 decoded_name_bounds label_64 0 _ 66).
  vm_compute. reflexivity.
Defined.


Lemma truncated_rdata_fails_witness :
  Deserialize truncated_answer = Err PacketTooShort.
Proof.
  apply (proj1 truncated_rdata_fails truncated_answer (mkQuestion "a" 1 1) 19
           "a"%string 22).
  - vm_compute. discriminate.
  - reflexivity.
  - vm_compute. reflexivity.
  - vm_compute. reflexivity.
  - vm_compute. discriminate.
  - vm_compute. reflexivity.
Defined.

(** * Further properties of the codec *)

(** ** encodeDomainName *)

Lemma len_wire_labels (labels : list string) :
  len (wire_labels labels) = slen (dotted labels).
Proof.
  induction labels as [|l ls IH]; cbn [wire_labels dotted]; [reflexivity|].
  autorewrite with len. rewrite IH. unfold slen.
  rewrite !string_length_append. cbn [String.length]. lia.
Qed.

Lemma len_wire_name (nm : string) : len (wire_name nm) = slen nm + 2.
Proof.
  unfold wire_name, labels_of. autorewrite with len.
  rewrite len_wire_labels, dotted_Split. unfold slen.
  rewrite string_length_append. cbn [String.length]. lia.
Qed.

Lemma encode_labels_closed (labels : list string) :
  forall buf : bytes,
    encode_labels labels buf
    = if forallb (fun l => slen l <=? 63) labels
      then Ok (buf ++ wire_labels labels) else Err LabelTooLong.
Proof.
  induction labels as [|l ls IH]; intros buf; cbn [encode_labels forallb wire_labels].
  - rewrite app_nil_r. reflexivity.
  - destruct (Z.ltb_spec 63 (slen l)) as [Hl|Hl].
    + destruct (Z.leb_spec (slen l) 63); [lia | reflexivity].
    + destruct (Z.leb_spec (slen l) 63); [|lia]. cbn [andb].
      rewrite IH. rewrite <- !app_assoc. reflexivity.
Qed.

Lemma encodeDomainName_closed (nm : string) :
  encodeDomainName nm
  = if encodable nm then Ok (wire_name nm) else Err LabelTooLong.
Proof.
  unfold encodeDomainName, encodable, wire_name, labels_of.
  rewrite encode_labels_closed.
  destruct (forallb _ _); reflexivity.
Qed.

Lemma name_ok_encodable (nm : string) : name_ok nm -> encodable nm = true.
Proof.
  unfold name_ok, encodable. intros H. apply forallb_forall.
  intros l Hl. rewrite Forall_forall in H. apply Z.leb_le.
  specialize (H l Hl). lia.
Qed.

(** X1. [encodeDomainName] either writes the whole name or fails with
    "label too long": it succeeds exactly when no label is above 63 bytes,
    and what it writes is the labels behind their length bytes and the
    zero byte, two bytes more than the name has. *)
Theorem encodeDomainName_result (nm : string) :
  encodeDomainName nm
  = (if encodable nm then Ok (wire_name nm) else Err LabelTooLong) /\
  len (wire_name nm) = slen nm + 2 /\
  (encodable nm = true <->
   Forall (fun l => slen l <= 63) (Split nm "."%char)).
Proof.
  split; [apply encodeDomainName_closed|].
  split; [apply len_wire_name|].
  unfold encodable, labels_of. rewrite forallb_forall, Forall_forall.
  split; intros H l Hl; specialize (H l Hl); apply Z.leb_le; exact H.
Qed.

(** ** decodeDomainName on names without pointers *)

Lemma decode_finish_dotted (o j : Z) (jd : bool) (nm : string) :
  decode_finish (mkDstate o j jd (nm ++ ".")) = Ok (nm, o).
Proof.
  unfold decode_finish. cbn [name offset]. unfold slen.
  rewrite string_length_append. cbn [String.length].
  destruct (Z.ltb_spec 0 (Z.of_nat (String.length nm + 1))); [|lia].
  replace (String.length nm + 1 - 1)%nat with (String.length nm) by lia.
  rewrite substring_prefix. reflexivity.
Qed.

(** The wire form of a name anywhere in a buffer decodes to the name,
    whatever lies before and behind it. *)
Lemma decodeDomainName_at (nm : string) (pre rest : bytes) :
  name_ok nm ->
  decodeDomainName (pre ++ wire_name nm ++ rest) (len pre)
  = Ok (nm, len pre + len (wire_name nm)).
Proof.
  intros Hok.
  apply decodeDomainName_of_loop with (n := S (List.length (labels_of nm)));
    [|discriminate].
  unfold wire_name. rewrite <- app_assoc. cbn [app].
  rewrite decode_loop_labels; cbn [offset jumps jumped name];
    try exact Hok; try reflexivity; [|unfold maxJumps; lia].
  unfold labels_of. cbn [append]. rewrite dotted_Split.
  rewrite decode_finish_dotted. autorewrite with len.
  do 2 f_equal. lia.
Qed.

(** X2. The wire form of a name whose labels have 1 to 63 bytes decodes to
    that name at any offset of any buffer: the bytes before and behind it
    do not matter, and the cursor moves on by the size of the wire form,
    the length of the name plus 2. *)
Theorem decode_in_context (nm : string) (pre rest : bytes) :
  name_ok nm ->
  decodeDomainName (pre ++ wire_name nm ++ rest) (len pre)
  = Ok (nm, len pre + slen nm + 2).
Proof.
  intros Hok. rewrite decodeDomainName_at by exact Hok.
  rewrite len_wire_name. do 2 f_equal. lia.
Qed.

Lemma decode_in_context_witness :
  decodeDomainName
    (hex [0xFF; 0xFF] ++ wire_name "example.com" ++ hex [0xC0; 0]) 2
  = Ok ("example.com"%string, 2 + 11 + 2).
Proof.
  apply (decode_in_context "example.com" (hex [0xFF; 0xFF]) (hex [0xC0; 0])).
  repeat constructor; vm_compute; discriminate.
Defined.

(** A pass of the loop where the buffer ends. *)
Lemma decode_step_at_end (pre : bytes) (st : dstate) :
  offset st = len pre -> jumps st <= maxJumps ->
  decode_step pre st = Return (Err BufferOverflow).
Proof.
  intros Ho Hj. unfold decode_step. rewrite Ho.
  destruct_tests; reflexivity || lia.
Qed.

(** A pass of the loop at a label whose bytes the buffer does not hold
    to the end. *)
Lemma decode_step_cut_label (pre cut : bytes) (l : string) (st : dstate) :
  1 <= slen l <= 63 -> offset st = len pre -> jumps st <= maxJumps ->
  len cut < slen l ->
  decode_step (pre ++ byte_of_Z (slen l) :: cut) st
  = Return (Err BufferOverflow).
Proof.
  intros Hl Ho Hj Hc. unfold decode_step. rewrite Ho.
  rewrite index_app_here, pointer_byte_test.
  rewrite byte_val_of_Z_small by lia. autorewrite with len.
  pose proof (len_nonneg pre). pose proof (len_nonneg cut).
  destruct_tests; reflexivity || lia.
Qed.

(** The loop over a cut wire form: it reads the labels that are whole and
    fails where the bytes stop. *)
Lemma decode_loop_cut (labels : list string) :
  forall (pre : bytes) (n : nat) (st : dstate),
    Forall (fun l => 1 <= slen l <= 63) labels ->
    offset st = len pre -> jumps st <= maxJumps ->
    (n < List.length (wire_labels labels ++ [x00]))%nat ->
    decode_loop (S (List.length labels))
      (pre ++ firstn n (wire_labels labels ++ [x00])) st
    = Err BufferOverflow.
Proof.
  induction labels as [|l ls IH]; intros pre n st Hall Ho Hj Hn.
  - cbn [wire_labels app List.length] in *.
    assert (n = 0%nat) by lia. subst n. cbn [firstn decode_loop].
    rewrite app_nil_r, decode_step_at_end by assumption. reflexivity.
  - inversion Hall as [|? ? Hl Hls]; subst.
    change (decode_loop (S (List.length (l :: ls))) ?d st)
      with (match decode_step d st with
            | Return r => r
            | Break st' => decode_finish st'
            | Next st' => decode_loop (S (List.length ls)) d st'
            end).
    cbn [wire_labels] in *. rewrite <- app_assoc in *.
    destruct n as [|n].
    + cbn [firstn]. rewrite app_nil_r, decode_step_at_end by assumption.
      reflexivity.
    + cbn [app firstn].
      pose proof (length_list_byte_of_string l) as Hll.
      destruct (Nat.lt_ge_cases n (String.length l)) as [Hlt|Hge].
      * rewrite decode_step_cut_label; try assumption; [reflexivity|].
        unfold len, slen. rewrite length_firstn. lia.
      * replace n with (List.length (list_byte_of_string l)
                        + (n - String.length l))%nat by lia.
        rewrite firstn_app_2.
        pose proof (decode_step_label pre
                      (firstn (n - String.length l) (wire_labels ls ++ [x00]))
                      l st Hl Ho Hj) as Hstep.
        cbn [app] in Hstep. rewrite Hstep. clear Hstep.
        replace (pre ++ byte_of_Z (slen l) :: list_byte_of_string l
                     ++ firstn (n - String.length l) (wire_labels ls ++ [x00]))
          with ((pre ++ byte_of_Z (slen l) :: list_byte_of_string l)
                  ++ firstn (n - String.length l) (wire_labels ls ++ [x00]))
          by (rewrite <- app_assoc; reflexivity).
        apply IH; cbn [offset jumps]; try assumption.
        -- autorewrite with len. lia.
        -- cbn [app List.length] in Hn. rewrite !length_app in Hn.
           rewrite length_app. cbn [List.length] in *. lia.
Qed.

(** X3. A wire form that is cut short does not decode: every proper prefix
    of the wire form of a name (labels of 1 to 63 bytes), wherever it ends
    and whatever stands before it, fails with "buffer overflow". *)
Theorem decode_cut_name (nm : string) (pre : bytes) (n : nat) :
  name_ok nm -> (n < List.length (wire_name nm))%nat ->
  decodeDomainName (pre ++ firstn n (wire_name nm)) (len pre)
  = Err BufferOverflow.
Proof.
  intros Hok Hn.
  apply decodeDomainName_of_loop with (n := S (List.length (labels_of nm)));
    [|discriminate].
  unfold wire_name in *.
  apply decode_loop_cut; cbn [offset jumps]; try assumption;
    [reflexivity | unfold maxJumps; lia].
Qed.

Lemma decode_cut_name_witness :
  decodeDomainName (hex [0x12] ++ firstn 12 (wire_name "example.com")) 1
  = Err BufferOverflow.
Proof.
  apply (decode_cut_name "example.com" (hex [0x12]) 12).
  - repeat constructor; vm_compute; discriminate.
  - vm_compute. lia.
Defined.

(** ** decodeDomainName in general *)

(** The two ways round the loop, exactly. *)
Lemma decode_step_Next_cases (data : bytes) (st st' : dstate) :
  decode_step data st = Next st' ->
  st' = mkDstate (pointer_target data (offset st)) (jumps st + 1) true
                 (name st) \/
  exists x : string,
    1 <= slen x <= 191 /\
    st' = mkDstate (offset st + 1 + slen x) (jumps st) (jumped st)
                   (name st ++ x ++ ".").
Proof.
  unfold decode_step, pointer_target. rewrite pointer_byte_test.
  pose proof (byte_val_range (index data (offset st))) as Hb.
  destruct_tests; intros Hs; try discriminate Hs; inversion Hs; subst st';
    auto.
  right.
  exists (string_of_list_byte
            (slice data (offset st + 1)
               (offset st + 1 + byte_val (index data (offset st))))).
  assert (Hl : slen (string_of_list_byte
                       (slice data (offset st + 1)
                          (offset st + 1 + byte_val (index data (offset st)))))
               = byte_val (index data (offset st))).
  { unfold slen. rewrite length_string_of_list_byte.
    fold (len (slice data (offset st + 1)
                 (offset st + 1 + byte_val (index data (offset st))))).
    rewrite len_slice; lia. }
  rewrite Hl. split; [lia | reflexivity].
Qed.

Lemma builder_filled_step (data : bytes) (st st' : dstate) :
  builder_filled (name st) -> decode_step data st = Next st' ->
  builder_filled (name st').
Proof.
  intros Hb E. apply decode_step_Next_cases in E.
  destruct E as [-> | (x & Hx & ->)]; cbn [name]; [exact Hb|].
  right. destruct Hb as [-> | (s & Hs & ->)].
  - exists x. split; [|reflexivity].
    intros ->. cbn in Hx. lia.
  - exists (s ++ "." ++ x)%string. split.
    + destruct s; [contradiction | discriminate].
    + rewrite !string_append_assoc. reflexivity.
Qed.

Lemma decodeDomainName_name_filled (data : bytes) (o : Z) (nm : string)
  (cur : Z) :
  decodeDomainName data o = Ok (nm, cur) -> nm <> EmptyString.
Proof.
  unfold decodeDomainName. intros Hd.
  apply (decode_loop_invariant data (fun st => builder_filled (name st))
           (builder_filled_step data)) in Hd; [|left; reflexivity].
  destruct Hd as (st1 & st2 & Hb & Hbr & Hfin).
  apply decode_step_Break in Hbr. destruct Hbr as (_ & _ & _ & Hname).
  rewrite <- Hname in Hb. destruct st2 as [o2 j2 jd2 b2]. cbn [name] in *.
  destruct Hb as [-> | (s & Hs & ->)].
  - cbn in Hfin. inversion Hfin. discriminate.
  - rewrite decode_finish_dotted in Hfin. inversion Hfin; subst. exact Hs.
Qed.

(** The offset a successful call started from lies in the buffer. *)
Lemma decodeDomainName_start (data : bytes) (o : Z) (nm : string) (cur : Z) :
  decodeDomainName data o = Ok (nm, cur) -> 0 <= o < len data.
Proof.
  unfold decodeDomainName, decode_fuel.
  destruct (7 * (List.length data + 1))%nat as [|fuel] eqn:Ef; [lia|].
  cbn [decode_loop].
  destruct (decode_step data (mkDstate o 0 false EmptyString))
    as [r|st'|st'] eqn:E; intros Hd.
  - subst r. exfalso. revert E. unfold decode_step.
    destruct_tests; discriminate.
  - apply decode_step_Break in E. cbn [offset] in E. tauto.
  - apply decode_step_Next in E. cbn [offset] in E. tauto.
Qed.

(** X4. What every successful [decodeDomainName] returns: a name that is
    not empty (the root comes back as "."), and a cursor inside the
    buffer that stands just behind a zero byte, the one that ended the
    name; the call started inside the buffer. *)
Theorem decodeDomainName_success (data : bytes) (o : Z) (nm : string)
  (cur : Z) :
  decodeDomainName data o = Ok (nm, cur) ->
  nm <> EmptyString /\ 0 <= o < len data /\ 1 <= cur <= len data /\
  index data (cur - 1) = x00.
Proof.
  intros Hd. split; [eapply decodeDomainName_name_filled; exact Hd|].
  split; [eapply decodeDomainName_start; exact Hd|].
  split; [eapply decodeDomainName_cursor; exact Hd|].
  apply decodeDomainName_cursor_zero in Hd. unfold zero_at in Hd.
  split_tests.
  destruct (index data (cur - 1)); try reflexivity;
    vm_compute in H0; discriminate H0.
Qed.

Lemma decodeDomainName_success_witness :
  "com"%string <> EmptyString /\ 0 <= 5 < len pointer_to_com /\
  1 <= 5 <= len pointer_to_com /\ index pointer_to_com (5 - 1) = x00.
Proof.
  apply (decodeDomainName_success pointer_to_com 5 "com" 5).
  vm_compute. reflexivity.
Defined.

(** X5. A name that is a compression pointer to the wire form of a name
    without pointers decodes to that name; the cursor that comes back is
    the end of the wire form pointed to, wherever the pointer itself
    stands. *)
Theorem decode_pointer_to_name (nm : string) (pre rest : bytes) (o : Z) :
  name_ok nm ->
  pointer_at (pre ++ wire_name nm ++ rest) o = true ->
  pointer_target (pre ++ wire_name nm ++ rest) o = len pre ->
  decodeDomainName (pre ++ wire_name nm ++ rest) o
  = Ok (nm, len pre + slen nm + 2).
Proof.
  intros Hok Hp Ht.
  apply decodeDomainName_of_loop
    with (n := S (S (List.length (labels_of nm)))); [|discriminate].
  change (decode_loop (S (S (List.length (labels_of nm)))) ?d ?st)
    with (match decode_step d st with
          | Return r => r
          | Break st' => decode_finish st'
          | Next st' => decode_loop (S (List.length (labels_of nm))) d st'
          end).
  rewrite decode_step_at_pointer;
    [|cbn [jumps]; unfold maxJumps; lia | exact Hp].
  cbn [offset jumps name]. rewrite Ht.
  unfold wire_name. rewrite <- app_assoc. cbn [app].
  rewrite decode_loop_labels; cbn [offset jumps jumped name];
    try exact Hok; try reflexivity; [|unfold maxJumps; lia].
  unfold labels_of. cbn [append]. rewrite dotted_Split, decode_finish_dotted.
  fold (labels_of nm).
  pose proof (len_wire_name nm) as Hw. unfold wire_name in Hw.
  autorewrite with len in Hw. do 2 f_equal. lia.
Qed.

Lemma decode_pointer_to_name_witness :
  decodeDomainName ([] ++ wire_name "com" ++ hex [0xC0; 0]) 5
  = Ok ("com"%string, len [] + slen "com" + 2).
Proof.
  apply (decode_pointer_to_name "com" [] (hex [0xC0; 0]) 5).
  - repeat constructor; vm_compute; discriminate.
  - reflexivity.
  - reflexivity.
Defined.

(** ** The header, from bytes to fields and back *)

Lemma Uint16_value (b : bytes) :
  Uint16 b = byte_val (index b 0) * 256 + byte_val (index b 1).
Proof.
  unfold Uint16. rewrite Z.shiftl_mul_pow2 by lia.
  rewrite Z.lor_comm. apply (lor_add _ _ 8); [lia | apply Z.mod_mul; lia|].
  change (2 ^ 8) with 256. apply byte_val_range.
Qed.

Lemma Uint16_range (b : bytes) : 0 <= Uint16 b < 2 ^ 16.
Proof.
  rewrite Uint16_value.
  pose proof (byte_val_range (index b 0)).
  pose proof (byte_val_range (index b 1)).
  change (2 ^ 16) with 65536. lia.
Qed.

Lemma byte_of_Z_val (b : byte) : byte_of_Z (byte_val b) = b.
Proof.
  unfold byte_of_Z, byte_val.
  pose proof (Byte.to_N_bounded b) as Hb.
  rewrite Z.mod_small by lia. rewrite N2Z.id, Byte.of_to_N. reflexivity.
Qed.

Lemma byte_of_Z_add_mul (v k : Z) : byte_of_Z (k * 256 + v) = byte_of_Z v.
Proof.
  unfold byte_of_Z. rewrite Z.add_comm, Z.mod_add by lia. reflexivity.
Qed.

(** [PutUint16] writes back the two bytes [Uint16] has read. *)
Lemma PutUint16_Uint16 (a b : byte) : PutUint16 (Uint16 [a; b]) = [a; b].
Proof.
  unfold PutUint16. rewrite Uint16_value.
  unfold index. change (Z.to_nat 0) with 0%nat. change (Z.to_nat 1) with 1%nat.
  cbn [nth]. rewrite byte_of_Z_add_mul, byte_of_Z_val.
  rewrite Z.shiftr_div_pow2 by lia. change (2 ^ 8) with 256.
  pose proof (byte_val_range b) as Hb.
  replace ((byte_val a * 256 + byte_val b) / 256) with (byte_val a).
  - rewrite byte_of_Z_val. reflexivity.
  - apply Z.div_unique with (r := byte_val b); lia.
Qed.

(** The header [Deserialize] reads has its fields within their ranges,
    whatever the bytes are. *)
Lemma deserializeHeader_in_range (data : bytes) :
  header_in_range (deserializeHeader data).
Proof.
  unfold header_in_range, deserializeHeader.
  cbn [ID OpCode Zres ResponseCode QuestionCount AnswerCount AuthorityCount
       AdditionalCount].
  pose proof (Uint16_range (slice data 2 4)) as HF.
  set (F := Uint16 (slice data 2 4)) in *.
  change 0xF with (Z.ones 4). change 0x7 with (Z.ones 3).
  rewrite !Z.land_ones, !Z.shiftr_div_pow2 by lia.
  repeat split; try apply Uint16_range; solve_pow.
Qed.

(** The flags word is the sum of the fields read from it. *)
Lemma flags_sum_deserializeHeader (data : bytes) :
  flags_sum (deserializeHeader data) = Uint16 (slice data 2 4).
Proof.
  unfold flags_sum, deserializeHeader.
  cbn [QR OpCode AA TC RD RA Zres ResponseCode].
  pose proof (Uint16_range (slice data 2 4)) as HF.
  set (F := Uint16 (slice data 2 4)) in *.
  rewrite !(Z.land_ones _ 4), !(Z.land_ones _ 3), !Z.shiftr_div_pow2 by lia.
  change 0x8000 with (2 ^ 15). change 0x0400 with (2 ^ 10).
  change 0x0200 with (2 ^ 9). change 0x0100 with (2 ^ 8).
  change (Z.land F 0x0080) with (Z.land F (2 ^ 7)).
  rewrite !land_pow2_test, !Z.testbit_spec' by lia.
  solve_pow.
Qed.

(** X6. The header that [Deserialize] reads always has its fields within
    their bit ranges (OpCode below 16, Z below 8, ResponseCode below 16,
    ID and counts below 65536), and writing it again with [Serialize]
    gives back the first twelve bytes it was read from: the header codec
    loses no bit. *)
Theorem deserializeHeader_faithful (data : bytes) :
  12 <= len data ->
  header_in_range (deserializeHeader data) /\
  serializeHeader (deserializeHeader data) = firstn 12 data.
Proof.
  intros Hlen. split; [apply deserializeHeader_in_range|].
  unfold serializeHeader.
  rewrite header_flags_sum by apply deserializeHeader_in_range.
  rewrite flags_sum_deserializeHeader.
  do 12 (destruct data as [|? data]; [cbn in Hlen; lia|]).
  unfold deserializeHeader.
  cbn [ID QuestionCount AnswerCount AuthorityCount AdditionalCount].
  change (slice (?a0 :: ?a1 :: ?a2 :: ?a3 :: ?a4 :: ?a5 :: ?a6 :: ?a7 :: ?a8
                   :: ?a9 :: ?a10 :: ?a11 :: data) 0 2) with [a0; a1].
  change (slice (?a0 :: ?a1 :: ?a2 :: ?a3 :: ?a4 :: ?a5 :: ?a6 :: ?a7 :: ?a8
                   :: ?a9 :: ?a10 :: ?a11 :: data) 2 4) with [a2; a3].
  change (slice (?a0 :: ?a1 :: ?a2 :: ?a3 :: ?a4 :: ?a5 :: ?a6 :: ?a7 :: ?a8
                   :: ?a9 :: ?a10 :: ?a11 :: data) 4 6) with [a4; a5].
  change (slice (?a0 :: ?a1 :: ?a2 :: ?a3 :: ?a4 :: ?a5 :: ?a6 :: ?a7 :: ?a8
                   :: ?a9 :: ?a10 :: ?a11 :: data) 6 8) with [a6; a7].
  change (slice (?a0 :: ?a1 :: ?a2 :: ?a3 :: ?a4 :: ?a5 :: ?a6 :: ?a7 :: ?a8
                   :: ?a9 :: ?a10 :: ?a11 :: data) 8 10) with [a8; a9].
  change (slice (?a0 :: ?a1 :: ?a2 :: ?a3 :: ?a4 :: ?a5 :: ?a6 :: ?a7 :: ?a8
                   :: ?a9 :: ?a10 :: ?a11 :: data) 10 12) with [a10; a11].
  rewrite !PutUint16_Uint16. reflexivity.
Qed.

Lemma deserializeHeader_faithful_witness :
  header_in_range (deserializeHeader truncated_answer) /\
  serializeHeader (deserializeHeader truncated_answer)
  = firstn 12 truncated_answer.
Proof.
  apply (deserializeHeader_faithful truncated_answer).
  vm_compute. discriminate.
Defined.

(** ** Serialize in closed form *)

Lemma serializeQuestion_closed (q : Question) :
  serializeQuestion q
  = if encodable (QName q) then Ok (question_bytes q) else Err LabelTooLong.
Proof.
  unfold serializeQuestion, question_bytes. rewrite encodeDomainName_closed.
  destruct (encodable (QName q)); reflexivity.
Qed.

Lemma serializeResourceRecord_closed (rr : ResourceRecord) :
  serializeResourceRecord rr
  = if encodable (Name rr) then Ok (record_bytes rr) else Err LabelTooLong.
Proof.
  unfold serializeResourceRecord, record_bytes. rewrite encodeDomainName_closed.
  destruct (encodable (Name rr)); cbn [bind app]; [|reflexivity].
  rewrite <- !app_assoc. reflexivity.
Qed.

Lemma serializeRecords_closed (rrs : list ResourceRecord) :
  forall buf : bytes,
    serializeRecords rrs buf
    = if records_encodable rrs then Ok (buf ++ records_bytes rrs)
      else Err LabelTooLong.
Proof.
  unfold records_encodable, records_bytes.
  induction rrs as [|rr rrs IH]; intros buf;
    cbn [serializeRecords forallb map List.concat].
  - rewrite app_nil_r. reflexivity.
  - rewrite serializeResourceRecord_closed.
    destruct (encodable (Name rr)); cbn [bind andb]; [|reflexivity].
    rewrite IH. rewrite <- app_assoc. reflexivity.
Qed.

Lemma Serialize_closed (p : Packet) :
  Serialize p
  = if packet_encodable p then Ok (packet_bytes p) else Err LabelTooLong.
Proof.
  unfold Serialize, packet_encodable, packet_bytes. cbv zeta.
  rewrite serializeQuestion_closed.
  destruct (encodable (QName (PQuestion p))); cbn [bind andb]; [|reflexivity].
  rewrite !serializeRecords_closed.
  destruct (records_encodable (Answer p)); cbn [bind andb]; [|reflexivity].
  rewrite !serializeRecords_closed.
  destruct (records_encodable (Authority p)); cbn [bind andb]; [|reflexivity].
  rewrite !serializeRecords_closed.
  destruct (records_encodable (Additional p)); cbn [bind andb]; [|reflexivity].
  cbn [app]. rewrite <- !app_assoc. reflexivity.
Qed.

Lemma len_records_bytes (rrs : list ResourceRecord) :
  len (records_bytes rrs) = records_size rrs.
Proof.
  unfold records_bytes, records_size.
  induction rrs as [|rr rrs IH]; cbn [map List.concat fold_right];
    [reflexivity|].
  autorewrite with len. rewrite IH. unfold record_bytes, record_size.
  autorewrite with len. rewrite len_wire_name.
  change (len (PutUint16 (Type_ rr))) with 2.
  change (len (PutUint16 (Class rr))) with 2.
  change (len (PutUint32 (TTL rr))) with 4.
  change (len (PutUint16 (RDLength rr))) with 2. lia.
Qed.

Lemma len_packet_bytes (p : Packet) : len (packet_bytes p) = packet_size p.
Proof.
  unfold packet_bytes, packet_size, question_bytes. autorewrite with len.
  rewrite !len_records_bytes, len_wire_name.
  change (len (serializeHeader (PHeader p))) with 12.
  change (len (PutUint16 (QType (PQuestion p)))) with 2.
  change (len (PutUint16 (QClass (PQuestion p)))) with 2. lia.
Qed.

(** X7. [Serialize] is all or nothing and has one way to fail: when a name
    of the question or of a record has a label above 63 bytes it returns
    "label too long" and no bytes; otherwise it returns the header, the
    question and the records of the three sections one after the other,
    [packet_size] bytes in all.  The payload of a record is written as it
    is stored: RDLength is not compared with its length. *)
Theorem Serialize_result (p : Packet) :
  Serialize p
  = (if packet_encodable p then Ok (packet_bytes p) else Err LabelTooLong) /\
  len (packet_bytes p) = packet_size p.
Proof.
  split; [apply Serialize_closed | apply len_packet_bytes].
Qed.

(** ** Reading back what Serialize wrote *)

Lemma Uint32_PutUint32 (v : Z) :
  0 <= v < 2 ^ 32 -> Uint32 (PutUint32 v) = v.
Proof.
  intros Hv. unfold Uint32, PutUint32, index.
  change (Z.to_nat 0) with 0%nat. change (Z.to_nat 1) with 1%nat.
  change (Z.to_nat 2) with 2%nat. change (Z.to_nat 3) with 3%nat.
  cbn [nth]. rewrite !byte_val_of_Z, !Z.shiftl_mul_pow2, !Z.shiftr_div_pow2
    by lia.
  change (2 ^ 32) with 4294967296 in Hv.
  change (2 ^ 8) with 256. change (2 ^ 16) with 65536.
  change (2 ^ 24) with 16777216.
  pose proof (Z.mod_pos_bound v 256 ltac:(lia)).
  pose proof (Z.mod_pos_bound (v / 256) 256 ltac:(lia)).
  pose proof (Z.mod_pos_bound (v / 65536) 256 ltac:(lia)).
  pose proof (Z.mod_pos_bound (v / 16777216) 256 ltac:(lia)).
  set (a0 := v mod 256) in *. set (a1 := (v / 256) mod 256) in *.
  set (a2 := (v / 65536) mod 256) in *.
  set (a3 := (v / 16777216) mod 256) in *.
  assert (E1 : Z.lor a0 (a1 * 256) = a1 * 256 + a0).
  { rewrite Z.lor_comm. apply (lor_add _ _ 8);
      [lia | apply Z.mod_mul; lia | change (2 ^ 8) with 256; lia]. }
  rewrite E1.
  assert (E2 : Z.lor (a1 * 256 + a0) (a2 * 65536)
               = a2 * 65536 + (a1 * 256 + a0)).
  { rewrite Z.lor_comm. apply (lor_add _ _ 16);
      [lia | change 65536 with (2 ^ 16); apply Z.mod_mul; lia
       | change (2 ^ 16) with 65536; lia]. }
  rewrite E2.
  assert (E3 : Z.lor (a2 * 65536 + (a1 * 256 + a0)) (a3 * 16777216)
               = a3 * 16777216 + (a2 * 65536 + (a1 * 256 + a0))).
  { rewrite Z.lor_comm. apply (lor_add _ _ 24);
      [lia | change 16777216 with (2 ^ 24); apply Z.mod_mul; lia
       | change (2 ^ 24) with 16777216; lia]. }
  rewrite E3. unfold a0, a1, a2, a3 in *.
  Z.div_mod_to_equations. lia.
Qed.

(** A slice that is one of the pieces a buffer is made of. *)
Lemma slice_at (data p m r : bytes) (lo hi : Z) :
  data = p ++ m ++ r -> lo = len p -> hi = len p + len m ->
  slice data lo hi = m.
Proof.
  intros -> -> ->. apply slice_app_here.
Qed.

Ltac solve_slice p' r' :=
  apply slice_at with (p := p') (r := r');
  [ repeat rewrite <- app_assoc; reflexivity
  | autorewrite with len; try reflexivity; lia
  | autorewrite with len; try reflexivity; lia ].

Lemma len_PutUint16 (v : Z) : len (PutUint16 v) = 2.
Proof. reflexivity. Qed.

Lemma len_PutUint32 (v : Z) : len (PutUint32 v) = 4.
Proof. reflexivity. Qed.

#[local] Hint Rewrite len_PutUint16 len_PutUint32 : len.

Lemma deserializeQuestion_at (q : Question) (pre rest : bytes) :
  question_ok q ->
  deserializeQuestion (pre ++ question_bytes q ++ rest) (len pre)
  = Ok (q, len pre + len (question_bytes q)).
Proof.
  intros (Hn & Ht & Hc). unfold deserializeQuestion, question_bytes.
  rewrite <- !app_assoc. rewrite decodeDomainName_at by exact Hn.
  cbn [bind].
  set (data := pre ++ wire_name (QName q) ++ PutUint16 (QType q)
                   ++ PutUint16 (QClass q) ++ rest).
  set (c := len pre + len (wire_name (QName q))).
  assert (Hlen : len data = c + 4 + len rest).
  { unfold data, c. autorewrite with len. lia. }
  pose proof (len_nonneg rest).
  destruct (Z.ltb_spec (len data) (c + 4)); [lia|].
  assert (E1 : slice data c (c + 2) = PutUint16 (QType q)).
  { unfold data, c.
    solve_slice (pre ++ wire_name (QName q)) (PutUint16 (QClass q) ++ rest). }
  assert (E2 : slice data (c + 2) (c + 4) = PutUint16 (QClass q)).
  { unfold data, c.
    solve_slice (pre ++ wire_name (QName q) ++ PutUint16 (QType q)) rest. }
  rewrite E1, E2. unfold PutUint16.
  rewrite !Uint16_PutUint16 by assumption.
  autorewrite with len. destruct q. cbn [QName QType QClass].
  do 2 f_equal. unfold c. cbn [QName]. lia.
Qed.

Lemma deserializeResourceRecord_at (rr : ResourceRecord) (pre rest : bytes) :
  record_ok rr ->
  deserializeResourceRecord (pre ++ record_bytes rr ++ rest) (len pre)
  = Ok (rr, len pre + len (record_bytes rr)).
Proof.
  intros (Hn & Ht & Hc & Httl & Hrl & Hrd).
  unfold deserializeResourceRecord, record_bytes.
  rewrite <- !app_assoc. rewrite decodeDomainName_at by exact Hn.
  cbn [bind].
  set (data := pre ++ wire_name (Name rr) ++ PutUint16 (Type_ rr)
                   ++ PutUint16 (Class rr) ++ PutUint32 (TTL rr)
                   ++ PutUint16 (RDLength rr) ++ RData rr ++ rest).
  set (c := len pre + len (wire_name (Name rr))).
  assert (Hlen : len data = c + 10 + len (RData rr) + len rest).
  { unfold data, c. autorewrite with len. lia. }
  pose proof (len_nonneg rest). pose proof (len_nonneg (RData rr)).
  destruct (Z.ltb_spec (len data) (c + 10)); [lia|].
  assert (E1 : slice data c (c + 2) = PutUint16 (Type_ rr)).
  { unfold data, c.
    solve_slice (pre ++ wire_name (Name rr))
                (PutUint16 (Class rr) ++ PutUint32 (TTL rr)
                 ++ PutUint16 (RDLength rr) ++ RData rr ++ rest). }
  assert (E2 : slice data (c + 2) (c + 4) = PutUint16 (Class rr)).
  { unfold data, c.
    solve_slice (pre ++ wire_name (Name rr) ++ PutUint16 (Type_ rr))
                (PutUint32 (TTL rr) ++ PutUint16 (RDLength rr)
                 ++ RData rr ++ rest). }
  assert (E3 : slice data (c + 4) (c + 8) = PutUint32 (TTL rr)).
  { unfold data, c.
    solve_slice (pre ++ wire_name (Name rr) ++ PutUint16 (Type_ rr)
                 ++ PutUint16 (Class rr))
                (PutUint16 (RDLength rr) ++ RData rr ++ rest). }
  assert (E4 : slice data (c + 8) (c + 10) = PutUint16 (RDLength rr)).
  { unfold data, c.
    solve_slice (pre ++ wire_name (Name rr) ++ PutUint16 (Type_ rr)
                 ++ PutUint16 (Class rr) ++ PutUint32 (TTL rr))
                (RData rr ++ rest). }
  rewrite E1, E2, E3, E4. rewrite Uint32_PutUint32 by exact Httl.
  unfold PutUint16. rewrite !Uint16_PutUint16 by assumption.
  destruct (Z.ltb_spec (len data) (c + 10 + RDLength rr)); [lia|].
  assert (E5 : slice data (c + 10) (c + 10 + RDLength rr) = RData rr).
  { replace (c + 10 + RDLength rr) with (c + 10 + len (RData rr)) by lia.
    unfold data, c.
    solve_slice (pre ++ wire_name (Name rr) ++ PutUint16 (Type_ rr)
                 ++ PutUint16 (Class rr) ++ PutUint32 (TTL rr)
                 ++ PutUint16 (RDLength rr)) rest. }
  rewrite E5. autorewrite with len.
  destruct rr. cbn [Name Type_ Class TTL RDLength RData] in *.
  do 2 f_equal. unfold c. cbn [Name]. lia.
Qed.

Lemma deserializeRecords_at (rrs : list ResourceRecord) (rest : bytes) :
  forall pre : bytes,
    Forall record_ok rrs ->
    deserializeRecords (List.length rrs) (pre ++ records_bytes rrs ++ rest)
      (len pre)
    = Ok (rrs, len pre + len (records_bytes rrs)).
Proof.
  unfold records_bytes.
  induction rrs as [|rr rrs IH]; intros pre Hall;
    cbn [List.length deserializeRecords map List.concat].
  - autorewrite with len. rewrite Z.add_0_r. reflexivity.
  - inversion Hall as [|? ? Hrr Hrrs]; subst.
    rewrite <- app_assoc.
    rewrite deserializeResourceRecord_at by exact Hrr. cbn [bind].
    replace (pre ++ record_bytes rr ++ List.concat (map record_bytes rrs) ++ rest)
      with ((pre ++ record_bytes rr)
              ++ List.concat (map record_bytes rrs) ++ rest)
      by (rewrite <- app_assoc; reflexivity).
    replace (len pre + len (record_bytes rr))
      with (len (pre ++ record_bytes rr)) by (autorewrite with len; lia).
    rewrite IH by exact Hrrs. cbn [bind]. autorewrite with len.
    do 2 f_equal. lia.
Qed.

(** X8. A question and a resource record read back as they were written:
    for a name with labels of 1 to 63 bytes and fields within their
    widths (and RDLength the length of the payload), what
    [serializeQuestion] or [serializeResourceRecord] has written is read
    by [deserializeQuestion] or [deserializeResourceRecord] as the same
    question or record, at whatever offset of whatever buffer it stands,
    and the cursor moves on by the number of bytes written. *)
Theorem question_record_roundtrip :
  (forall (q : Question) (pre rest : bytes),
      question_ok q ->
      exists b : bytes,
        serializeQuestion q = Ok b /\
        deserializeQuestion (pre ++ b ++ rest) (len pre)
        = Ok (q, len pre + len b)) /\
  (forall (rr : ResourceRecord) (pre rest : bytes),
      record_ok rr ->
      exists b : bytes,
        serializeResourceRecord rr = Ok b /\
        deserializeResourceRecord (pre ++ b ++ rest) (len pre)
        = Ok (rr, len pre + len b)).
Proof.
  split.
  - intros q pre rest Hq. exists (question_bytes q). split.
    + rewrite serializeQuestion_closed.
      rewrite name_ok_encodable by apply Hq. reflexivity.
    + apply deserializeQuestion_at. exact Hq.
  - intros rr pre rest Hrr. exists (record_bytes rr). split.
    + rewrite serializeResourceRecord_closed.
      rewrite name_ok_encodable by apply Hrr. reflexivity.
    + apply deserializeResourceRecord_at. exact Hrr.
Qed.

(** The header read back from the twelve bytes written for it, whatever
    follows them. *)
Lemma deserializeHeader_serializeHeader (h : Header) (rest : bytes) :
  header_in_range h -> deserializeHeader (serializeHeader h ++ rest) = h.
Proof.
  intros Hr.
  pose proof (flags_sum_range h Hr) as HF.
  pose proof (fun k b => flags_sum_bit h k b Hr) as Hbit.
  unfold serializeHeader, PutUint16. cbn [app].
  rewrite deserializeHeader_bytes. cbv zeta.
  rewrite !Uint16_PutUint16; rewrite ?header_flags_sum by exact Hr;
    try exact HF; try (destruct Hr as (? & ? & ? & ? & ? & ? & ? & ?);
                       assumption).
  rewrite !(Z.land_ones _ 4), !(Z.land_ones _ 3), !Z.shiftr_div_pow2 by lia.
  change 0x8000 with (2 ^ 15). change 0x0400 with (2 ^ 10).
  change 0x0200 with (2 ^ 9). change 0x0100 with (2 ^ 8).
  change (Z.land (flags_sum h) 0x0080) with (Z.land (flags_sum h) (2 ^ 7)).
  assert (Hq : 0 <= Z.b2z (QR h) <= 1) by (destruct (QR h); cbn; lia).
  assert (Ha : 0 <= Z.b2z (AA h) <= 1) by (destruct (AA h); cbn; lia).
  assert (Ht : 0 <= Z.b2z (TC h) <= 1) by (destruct (TC h); cbn; lia).
  assert (Hd : 0 <= Z.b2z (RD h) <= 1) by (destruct (RD h); cbn; lia).
  assert (Ha' : 0 <= Z.b2z (RA h) <= 1) by (destruct (RA h); cbn; lia).
  destruct Hr as (_ & Hop & Hz & Hrc & _).
  rewrite (Hbit 15 (QR h)), (Hbit 10 (AA h)), (Hbit 9 (TC h)),
    (Hbit 8 (RD h)), (Hbit 7 (RA h));
    try lia; try (unfold flags_sum; solve_pow).
  replace ((flags_sum h / 2 ^ 11) mod 2 ^ 4 mod 2 ^ 8) with (OpCode h)
    by (unfold flags_sum; solve_pow).
  replace ((flags_sum h / 2 ^ 4) mod 2 ^ 3 mod 2 ^ 8) with (Zres h)
    by (unfold flags_sum; solve_pow).
  replace (flags_sum h mod 2 ^ 4 mod 2 ^ 8) with (ResponseCode h)
    by (unfold flags_sum; solve_pow).
  destruct h; reflexivity.
Qed.

Lemma len_serializeHeader (h : Header) : len (serializeHeader h) = 12.
Proof. reflexivity. Qed.

#[local] Hint Rewrite len_serializeHeader : len.

Lemma len_records_nat (rrs : list ResourceRecord) :
  Z.to_nat (len_records rrs) = List.length rrs.
Proof. unfold len_records. apply Nat2Z.id. Qed.

(** [Deserialize] on the bytes of a packet, whatever follows them. *)
Lemma Deserialize_packet_bytes (p : Packet) (rest : bytes) :
  packet_ok p -> Deserialize (packet_bytes p ++ rest) = Ok p.
Proof.
  intros (Hh & Hq & Han & Hau & Had & Can & Cau & Cad).
  unfold Deserialize, packet_bytes. cbv zeta.
  rewrite <- !app_assoc.
  rewrite !deserializeHeader_serializeHeader by exact Hh.
  rewrite Can, Cau, Cad, !len_records_nat.
  set (hb := serializeHeader (PHeader p)).
  set (qb := question_bytes (PQuestion p)).
  set (anb := records_bytes (Answer p)).
  set (aub := records_bytes (Authority p)).
  set (adb := records_bytes (Additional p)).
  assert (Hhb : len hb = 12) by reflexivity.
  pose proof (len_nonneg (qb ++ anb ++ aub ++ adb ++ rest)) as Hrest.
  destruct (Z.ltb_spec (len (hb ++ qb ++ anb ++ aub ++ adb ++ rest)) 12)
    as [Hs|Hs]; [rewrite len_app in Hs; lia|].
  rewrite <- Hhb.
  pose proof (deserializeQuestion_at (PQuestion p) hb
                (anb ++ aub ++ adb ++ rest) Hq) as Eq.
  fold qb in Eq. rewrite Eq. cbn [bind]. clear Eq.
  pose proof (deserializeRecords_at (Answer p) (aub ++ adb ++ rest)
                (hb ++ qb) Han) as Ean.
  fold anb in Ean. rewrite <- !app_assoc, len_app in Ean.
  rewrite Ean. cbn [bind]. clear Ean.
  pose proof (deserializeRecords_at (Authority p) (adb ++ rest)
                (hb ++ qb ++ anb) Hau) as Eau.
  fold aub in Eau. rewrite <- !app_assoc, !len_app, Z.add_assoc in Eau.
  rewrite Eau. cbn [bind]. clear Eau.
  pose proof (deserializeRecords_at (Additional p) rest
                (hb ++ qb ++ anb ++ aub) Had) as Ead.
  fold adb in Ead. rewrite <- !app_assoc, !len_app, !Z.add_assoc in Ead.
  rewrite Ead. cbn [bind]. clear Ead.
  destruct p; reflexivity.
Qed.

Lemma packet_ok_encodable (p : Packet) :
  packet_ok p -> packet_encodable p = true.
Proof.
  intros (_ & Hq & Han & Hau & Had & _). unfold packet_encodable.
  assert (Hrec : forall rrs, Forall record_ok rrs ->
                             records_encodable rrs = true).
  { intros rrs Hall. unfold records_encodable. apply forallb_forall.
    intros rr Hin. rewrite Forall_forall in Hall.
    apply name_ok_encodable. apply (Hall rr Hin). }
  rewrite (name_ok_encodable _ (proj1 Hq)), !Hrec by assumption.
  reflexivity.
Qed.

(** X9. A well-formed packet survives the round trip: when the header
    fields are within their ranges, the names have labels of 1 to 63
    bytes, every RDLength is the length of its payload and the three
    record counts are the lengths of the sections, [Serialize] succeeds
    and [Deserialize] returns the same packet from the bytes written,
    also when other bytes follow them. *)
Theorem Serialize_Deserialize_roundtrip (p : Packet) :
  packet_ok p ->
  exists buf : bytes,
    Serialize p = Ok buf /\
    forall rest : bytes, Deserialize (buf ++ rest) = Ok p.
Proof.
  intros Hp. exists (packet_bytes p). split.
  - rewrite Serialize_closed, packet_ok_encodable by exact Hp. reflexivity.
  - intros rest. apply Deserialize_packet_bytes. exact Hp.
Qed.

Lemma sample_response_ok : packet_ok sample_response.
Proof.
  unfold packet_ok, sample_response, header_in_range, question_ok, record_ok,
    name_ok, u16, u32. cbn [PHeader PQuestion Answer Authority Additional].
  repeat split; repeat constructor; vm_compute; discriminate || reflexivity.
Defined.

Lemma Serialize_Deserialize_roundtrip_witness :
  exists buf : bytes,
    Serialize sample_response = Ok buf /\
    forall rest : bytes, Deserialize (buf ++ rest) = Ok sample_response.
Proof.
  apply (Serialize_Deserialize_roundtrip sample_response).
  exact sample_response_ok.
Defined.

(** X10. The wire form of well-formed packets is self-delimiting: when the
    bytes of one well-formed packet begin with the bytes of another, the
    two packets are the same and nothing follows.  In particular two
    well-formed packets with the same bytes are equal. *)
Theorem Serialize_prefix_free (p1 p2 : Packet) (b1 r : bytes) :
  packet_ok p1 -> packet_ok p2 ->
  Serialize p1 = Ok b1 -> Serialize p2 = Ok (b1 ++ r) ->
  p1 = p2 /\ r = [].
Proof.
  intros H1 H2 E1 E2.
  rewrite Serialize_closed, packet_ok_encodable in E1, E2 by assumption.
  inversion E1 as [Eb1]. inversion E2 as [Eb2].
  pose proof (Deserialize_packet_bytes p1 r H1) as D1.
  pose proof (Deserialize_packet_bytes p2 [] H2) as D2.
  rewrite Eb1 in D1. rewrite Eb2, app_nil_r in D2.
  rewrite D1 in D2. inversion D2 as [Ep]. split; [reflexivity|].
  subst p2. rewrite Eb1 in Eb2.
  apply (f_equal (@List.length byte)) in Eb2. rewrite length_app in Eb2.
  destruct r; [reflexivity | cbn [List.length] in Eb2; lia].
Qed.

Lemma Serialize_prefix_free_witness :
  sample_response = sample_response /\ @nil byte = [].
Proof.
  apply (Serialize_prefix_free sample_response sample_response
           (packet_bytes sample_response) []).
  - exact sample_response_ok.
  - exact sample_response_ok.
  - vm_compute. reflexivity.
  - vm_compute. reflexivity.
Defined.

(** ** The outcomes of Deserialize *)

Lemma decode_step_Return (data : bytes) (st : dstate)
  (r : result (string * Z)) :
  0 <= offset st -> decode_step data st = Return r ->
  r = Err BufferOverflow \/ r = Err TooManyJumps.
Proof.
  unfold decode_step. intros Ho.
  destruct_tests; intros Hs; try discriminate Hs; inversion Hs; auto; lia.
Qed.

Lemma decode_loop_decoded (data : bytes) :
  forall (fuel : nat) (st : dstate),
    0 <= offset st -> decode_loop fuel data st <> Diverge ->
    decoded (decode_loop fuel data st).
Proof.
  induction fuel as [|fuel IH]; intros st Ho Hd; cbn [decode_loop] in *.
  - contradiction.
  - destruct (decode_step data st) as [r|st'|st'] eqn:E.
    + destruct (decode_step_Return _ _ _ Ho E) as [-> | ->]; cbn; auto.
    + destruct (decode_finish_ok st') as [s ->]. exact I.
    + apply IH; [|exact Hd]. apply decode_step_Next in E.
      destruct E as (_ & _ & [(_ & E & _) | (_ & E & _)]); lia.
Qed.

Lemma decodeDomainName_decoded (data : bytes) (o : Z) :
  0 <= o -> decoded (decodeDomainName data o).
Proof.
  intros Ho. unfold decodeDomainName. apply decode_loop_decoded; [exact Ho|].
  apply decodeDomainName_not_Diverge.
Qed.

Lemma deserializeQuestion_decoded (data : bytes) (o : Z) :
  0 <= o -> decoded (deserializeQuestion data o).
Proof.
  intros Ho. unfold deserializeQuestion.
  pose proof (decodeDomainName_decoded data o Ho) as Hd.
  destruct (decodeDomainName data o) as [[nm c]|e| |]; cbn [bind decoded] in *;
    try assumption.
  destruct (len data <? c + 4); cbn; auto.
Qed.

Lemma deserializeResourceRecord_decoded (data : bytes) (o : Z) :
  0 <= o -> decoded (deserializeResourceRecord data o).
Proof.
  intros Ho. unfold deserializeResourceRecord.
  pose proof (decodeDomainName_decoded data o Ho) as Hd.
  destruct (decodeDomainName data o) as [[nm c]|e| |]; cbn [bind decoded] in *;
    try assumption.
  destruct (len data <? c + 10); cbn; auto.
  destruct (len data <? _); cbn; auto.
Qed.

Lemma deserializeRecords_decoded (data : bytes) :
  forall (n : nat) (o : Z),
    0 <= o -> decoded (deserializeRecords n data o).
Proof.
  induction n as [|n IH]; intros o Ho; cbn [deserializeRecords]; [exact I|].
  pose proof (deserializeResourceRecord_decoded data o Ho) as Hd.
  destruct (deserializeResourceRecord data o) as [[rr o1]|e| |] eqn:E;
    cbn [bind decoded] in *; try assumption.
  apply deserializeResourceRecord_ok in E.
  assert (Ho1 : 0 <= o1) by lia.
  pose proof (IH o1 Ho1) as Hd1.
  destruct (deserializeRecords n data o1) as [[rrs o2]|e| |];
    cbn [bind decoded] in *; assumption.
Qed.

Lemma deserializeRecords_offset (data : bytes) :
  forall (n : nat) (o : Z) (rrs : list ResourceRecord) (o' : Z),
    0 <= o <= len data ->
    deserializeRecords n data o = Ok (rrs, o') -> 0 <= o' <= len data.
Proof.
  induction n as [|n IH]; intros o rrs o' Ho H; cbn [deserializeRecords] in H.
  - inversion H; subst. exact Ho.
  - destruct (deserializeResourceRecord data o) as [[rr o1]| | |] eqn:E1;
      cbn [bind] in H; try discriminate H.
    destruct (deserializeRecords n data o1) as [[rrs1 o2]| | |] eqn:E2;
      cbn [bind] in H; try discriminate H.
    inversion H; subst. apply deserializeResourceRecord_ok in E1.
    apply (IH o1 rrs1 o'); [lia | exact E2].
Qed.

Lemma deserializeQuestion_offset (data : bytes) (o : Z) (q : Question)
  (o' : Z) :
  deserializeQuestion data o = Ok (q, o') -> 5 <= o' <= len data.
Proof.
  unfold deserializeQuestion. intros H.
  destruct (decodeDomainName data o) as [[nm c]| | |] eqn:E;
    cbn [bind] in H; try discriminate H.
  apply decodeDomainName_cursor in E. revert H.
  destruct (Z.ltb_spec (len data) (c + 4)); intros Hd; inversion Hd; lia.
Qed.

Lemma Deserialize_decoded (data : bytes) : decoded (Deserialize data).
Proof.
  unfold Deserialize. cbv zeta.
  destruct (len data <? 12); [cbn; auto|].
  pose proof (deserializeQuestion_decoded data 12 ltac:(lia)) as Hq.
  destruct (deserializeQuestion data 12) as [[q o1]|e| |] eqn:Eq;
    cbn [bind decoded] in *; try assumption.
  apply deserializeQuestion_offset in Eq.
  pose proof (deserializeRecords_decoded data
                (Z.to_nat (AnswerCount (deserializeHeader data))) o1
                ltac:(lia)) as H1.
  destruct (deserializeRecords _ data o1) as [[an o2]|e| |] eqn:E1;
    cbn [bind decoded] in *; try assumption.
  apply deserializeRecords_offset in E1; [|lia].
  pose proof (deserializeRecords_decoded data
                (Z.to_nat (AuthorityCount (deserializeHeader data))) o2
                ltac:(lia)) as H2.
  destruct (deserializeRecords _ data o2) as [[au o3]|e| |] eqn:E2;
    cbn [bind decoded] in *; try assumption.
  apply deserializeRecords_offset in E2; [|lia].
  pose proof (deserializeRecords_decoded data
                (Z.to_nat (AdditionalCount (deserializeHeader data))) o3
                ltac:(lia)) as H3.
  destruct (deserializeRecords _ data o3) as [[ad o4]|e| |] eqn:E3;
    cbn [bind decoded] in *; try assumption.
Qed.

(** ** The run-time checks never fail *)

Lemma index_chk_ok (data : bytes) (i : Z) :
  0 <= i < len data -> index_chk data i = Ok (index data i).
Proof.
  intros Hi. unfold index_chk.
  destruct (Z.ltb_spec i 0); [lia|].
  destruct (Z.leb_spec (len data) i); [lia | reflexivity].
Qed.

Lemma slice_chk_ok (data : bytes) (lo hi : Z) :
  0 <= lo <= hi -> hi <= len data ->
  slice_chk data lo hi = Ok (slice data lo hi).
Proof.
  intros Hlo Hhi. unfold slice_chk.
  destruct (Z.ltb_spec lo 0); [lia|].
  destruct (Z.ltb_spec hi lo); [lia|].
  destruct (Z.ltb_spec (len data) hi); [lia | reflexivity].
Qed.

Lemma read16_ok (data : bytes) (lo hi : Z) :
  0 <= lo -> hi = lo + 2 -> hi <= len data ->
  read16 data lo hi = Ok (Uint16 (slice data lo hi)).
Proof.
  intros Hlo Hhi Hlen. unfold read16.
  rewrite slice_chk_ok by lia. cbn [bind]. unfold Uint16_chk.
  rewrite len_slice by lia.
  destruct (Z.ltb_spec (hi - lo) 2); [lia | reflexivity].
Qed.

Lemma read32_ok (data : bytes) (lo hi : Z) :
  0 <= lo -> hi = lo + 4 -> hi <= len data ->
  read32 data lo hi = Ok (Uint32 (slice data lo hi)).
Proof.
  intros Hlo Hhi Hlen. unfold read32.
  rewrite slice_chk_ok by lia. cbn [bind]. unfold Uint32_chk.
  rewrite len_slice by lia.
  destruct (Z.ltb_spec (hi - lo) 4); [lia | reflexivity].
Qed.

(** A pass of the loop: the tests of the source on [offset] come before
    each read and keep it inside the buffer. *)
Lemma decode_step_chk_eq (data : bytes) (st : dstate) :
  decode_step_chk data st = decode_step data st.
Proof.
  unfold decode_step_chk, decode_step.
  destruct (Z.ltb_spec maxJumps (jumps st)); [reflexivity|].
  destruct (Z.leb_spec (len data) (offset st)); [reflexivity|].
  destruct (Z.ltb_spec (offset st) 0) as [Hneg|Hpos].
  - unfold index_chk. destruct (Z.ltb_spec (offset st) 0); [|lia].
    reflexivity.
  - rewrite index_chk_ok by lia. cbn [reading]. cbv zeta.
    pose proof (byte_val_range (index data (offset st))) as Hb.
    destruct (Z.eqb_spec (byte_val (index data (offset st))) 0);
      [reflexivity|].
    destruct (Z.land (byte_val (index data (offset st))) 192 =? 192).
    + destruct (Z.leb_spec (len data) (offset st + 1)); [reflexivity|].
      rewrite read16_ok by lia. reflexivity.
    + destruct (Z.ltb_spec (len data)
                  (offset st + 1 + byte_val (index data (offset st))));
        [reflexivity|].
      rewrite slice_chk_ok by lia. reflexivity.
Qed.

Lemma decode_finish_chk_eq (st : dstate) :
  decode_finish_chk st = decode_finish st.
Proof.
  unfold decode_finish_chk, decode_finish, prefix_chk.
  destruct (Z.ltb_spec 0 (slen (name st))) as [Hpos|]; [|reflexivity].
  destruct (Z.ltb_spec (slen (name st) - 1) 0); [lia|].
  destruct (Z.ltb_spec (slen (name st)) (slen (name st) - 1)); [lia|].
  cbn [orb bind]. unfold slen.
  replace (Z.to_nat (Z.of_nat (String.length (name st)) - 1))
    with (String.length (name st) - 1)%nat by lia.
  reflexivity.
Qed.

Lemma decode_loop_chk_eq (data : bytes) :
  forall (fuel : nat) (st : dstate),
    decode_loop_chk fuel data st = decode_loop fuel data st.
Proof.
  induction fuel as [|fuel IH]; intros st;
    cbn [decode_loop_chk decode_loop]; [reflexivity|].
  rewrite decode_step_chk_eq.
  destruct (decode_step data st); auto using decode_finish_chk_eq.
Qed.

Lemma decodeDomainName_chk_eq (data : bytes) (o : Z) :
  decodeDomainName_chk data o = decodeDomainName data o.
Proof.
  unfold decodeDomainName_chk, decodeDomainName. apply decode_loop_chk_eq.
Qed.

(** The question: the cursor of the name is at least 1, and the test
    [offset+4 > len(data)] comes before the two reads. *)
Lemma deserializeQuestion_chk_eq (data : bytes) (o : Z) :
  deserializeQuestion_chk data o = deserializeQuestion data o.
Proof.
  unfold deserializeQuestion_chk, deserializeQuestion.
  rewrite decodeDomainName_chk_eq.
  destruct (decodeDomainName data o) as [[nm c]| | |] eqn:E;
    cbn [bind]; try reflexivity.
  apply decodeDomainName_cursor in E.
  destruct (Z.ltb_spec (len data) (c + 4)); [reflexivity|].
  rewrite !read16_ok by lia. reflexivity.
Qed.

(** The record: the test [offset+10 > len(data)] comes before the four
    reads of the fixed fields, and the test on RDLength before the slice
    of the payload. *)
Lemma deserializeResourceRecord_chk_eq (data : bytes) (o : Z) :
  deserializeResourceRecord_chk data o = deserializeResourceRecord data o.
Proof.
  unfold deserializeResourceRecord_chk, deserializeResourceRecord.
  rewrite decodeDomainName_chk_eq.
  destruct (decodeDomainName data o) as [[nm c]| | |] eqn:E;
    cbn [bind]; try reflexivity.
  apply decodeDomainName_cursor in E.
  destruct (Z.ltb_spec (len data) (c + 10)); [reflexivity|].
  rewrite !read16_ok, read32_ok by lia. cbn [bind]. cbv zeta.
  pose proof (Uint16_nonneg (slice data (c + 8) (c + 10))) as Hrd.
  destruct (Z.ltb_spec (len data)
              (c + 10 + Uint16 (slice data (c + 8) (c + 10))));
    [reflexivity|].
  rewrite slice_chk_ok by lia. reflexivity.
Qed.

Lemma deserializeRecords_chk_eq (data : bytes) :
  forall (n : nat) (o : Z),
    deserializeRecords_chk n data o = deserializeRecords n data o.
Proof.
  induction n as [|n IH]; intros o;
    cbn [deserializeRecords_chk deserializeRecords]; [reflexivity|].
  rewrite deserializeResourceRecord_chk_eq.
  destruct (deserializeResourceRecord data o) as [[rr o1]| | |];
    cbn [bind]; try reflexivity.
  rewrite IH. reflexivity.
Qed.

(** The header: the test [len(data) < 12] comes before the six reads. *)
Lemma deserializeHeader_chk_eq (data : bytes) :
  12 <= len data -> deserializeHeader_chk data = Ok (deserializeHeader data).
Proof.
  intros Hlen. unfold deserializeHeader_chk.
  rewrite !read16_ok by lia. reflexivity.
Qed.

Lemma Deserialize_chk_eq (data : bytes) :
  Deserialize_chk data = Deserialize data.
Proof.
  unfold Deserialize_chk, Deserialize. cbv zeta.
  destruct (Z.ltb_spec (len data) 12); [reflexivity|].
  rewrite deserializeHeader_chk_eq by assumption. cbn [bind].
  rewrite deserializeQuestion_chk_eq.
  destruct (deserializeQuestion data 12) as [[q o1]| | |];
    cbn [bind]; try reflexivity.
  rewrite deserializeRecords_chk_eq.
  destruct (deserializeRecords _ data o1) as [[an o2]| | |];
    cbn [bind]; try reflexivity.
  rewrite deserializeRecords_chk_eq.
  destruct (deserializeRecords _ data o2) as [[au o3]| | |];
    cbn [bind]; try reflexivity.
  rewrite deserializeRecords_chk_eq. reflexivity.
Qed.

(** The checks are live: a read outside the buffer is a panic. *)
Example checks_can_fail :
  index_chk [] 0 = Panic /\ slice_chk (hex [1]) 1 3 = Panic /\
  read16 (hex [0xC0]) 0 2 = Panic /\ Uint16_chk (hex [0xC0]) = Panic /\
  prefix_chk "" (-1) = Panic.
Proof. repeat split; reflexivity. Qed.

(** X11. [Deserialize] is memory safe.  With every index and slice
    expression of the decoding side behind the bounds check of the
    run-time ([Deserialize_chk]), no check ever fails, whatever the bytes
    of the buffer are: each read comes behind a test of the source that
    keeps it inside the buffer, so [Deserialize_chk] is [Deserialize], and
    it returns a packet or one of "packet too short", "buffer overflow"
    and "too many jumps", never a panic.  The same holds for
    [decodeDomainName] from every offset that is not negative. *)
Theorem Deserialize_memory_safe (data : bytes) :
  Deserialize_chk data = Deserialize data /\
  decoded (Deserialize_chk data) /\
  forall o : Z,
    0 <= o ->
    decodeDomainName_chk data o = decodeDomainName data o /\
    decoded (decodeDomainName_chk data o).
Proof.
  split; [apply Deserialize_chk_eq|]. split.
  - rewrite Deserialize_chk_eq. apply Deserialize_decoded.
  - intros o Ho. split; [apply decodeDomainName_chk_eq|].
    rewrite decodeDomainName_chk_eq. apply decodeDomainName_decoded.
    exact Ho.
Qed.

(** ** Bytes behind the message *)

Lemma index_app_l (a b : bytes) (i : Z) :
  0 <= i < len a -> index (a ++ b) i = index a i.
Proof.
  unfold index, len. intros Hi. apply app_nth1. lia.
Qed.

Lemma slice_app_l (a b : bytes) (lo hi : Z) :
  0 <= lo -> hi <= len a -> slice (a ++ b) lo hi = slice a lo hi.
Proof.
  unfold slice, len. intros Hlo Hhi.
  destruct (Z.le_gt_cases lo hi) as [Hle|Hgt].
  - rewrite skipn_app, firstn_app.
    replace (Z.to_nat lo - List.length a)%nat with 0%nat by lia.
    rewrite length_skipn.
    replace (Z.to_nat (hi - lo) - (List.length a - Z.to_nat lo))%nat
      with 0%nat by lia.
    cbn [skipn firstn]. apply app_nil_r.
  - replace (Z.to_nat (hi - lo)) with 0%nat by lia. reflexivity.
Qed.

(** A pass of the loop that does not fail reads inside the buffer, so it
    is the same pass when bytes are added behind the buffer. *)
Lemma decode_step_extend (data extra : bytes) (st : dstate) :
  (forall st', decode_step data st = Next st' ->
               decode_step (data ++ extra) st = Next st') /\
  (forall st', decode_step data st = Break st' ->
               decode_step (data ++ extra) st = Break st').
Proof.
  pose proof (len_nonneg extra) as He.
  assert (Hin : forall st', decode_step data st = Next st' \/
                            decode_step data st = Break st' ->
                            0 <= offset st < len data).
  { intros st' [E|E]; [apply decode_step_Next in E
                      | apply decode_step_Break in E]; tauto. }
  assert (Hgo : forall it, (exists st', it = Next st' \/ it = Break st') ->
                           decode_step data st = it ->
                           decode_step (data ++ extra) st = it).
  { intros it (st' & Hit) E.
    assert (Ho : 0 <= offset st < len data).
    { apply (Hin st'). destruct Hit as [-> | ->]; auto. }
    revert E. unfold decode_step.
    rewrite len_app, (index_app_l data extra (offset st) Ho).
    destruct_tests; try lia; intros E; try exact E;
      try (rewrite slice_app_l by lia; exact E);
      destruct Hit as [-> | ->]; discriminate E. }
  split; intros st' E; apply Hgo; eauto.
Qed.

Lemma decode_loop_extend (data extra : bytes) :
  forall (fuel : nat) (st : dstate) (r : string * Z),
    decode_loop fuel data st = Ok r ->
    decode_loop fuel (data ++ extra) st = Ok r.
Proof.
  induction fuel as [|fuel IH]; intros st r H; cbn [decode_loop] in *;
    [discriminate H|].
  destruct (decode_step_extend data extra st) as [HN HB].
  destruct (decode_step data st) as [r'|st'|st'] eqn:E.
  - subst r'. exfalso. revert E. unfold decode_step.
    destruct_tests; discriminate.
  - rewrite (HB st' eq_refl). exact H.
  - rewrite (HN st' eq_refl). apply IH. exact H.
Qed.

Lemma decodeDomainName_extend (data extra : bytes) (o : Z) (nm : string)
  (c : Z) :
  decodeDomainName data o = Ok (nm, c) ->
  decodeDomainName (data ++ extra) o = Ok (nm, c).
Proof.
  intros H. apply decodeDomainName_of_loop with (n := decode_fuel data);
    [|discriminate].
  apply decode_loop_extend. exact H.
Qed.

Lemma deserializeQuestion_extend (data extra : bytes) (o : Z) (q : Question)
  (o' : Z) :
  deserializeQuestion data o = Ok (q, o') ->
  deserializeQuestion (data ++ extra) o = Ok (q, o').
Proof.
  unfold deserializeQuestion. intros H.
  destruct (decodeDomainName data o) as [[nm c]| | |] eqn:E;
    cbn [bind] in H; try discriminate H.
  rewrite (decodeDomainName_extend _ extra _ _ _ E). cbn [bind].
  apply decodeDomainName_cursor in E. pose proof (len_nonneg extra).
  revert H. rewrite len_app.
  destruct_tests; try lia; intros Hd; try discriminate Hd.
  rewrite !slice_app_l by lia. exact Hd.
Qed.

Lemma deserializeResourceRecord_extend (data extra : bytes) (o : Z)
  (rr : ResourceRecord) (o' : Z) :
  deserializeResourceRecord data o = Ok (rr, o') ->
  deserializeResourceRecord (data ++ extra) o = Ok (rr, o').
Proof.
  unfold deserializeResourceRecord. intros H.
  destruct (decodeDomainName data o) as [[nm c]| | |] eqn:E;
    cbn [bind] in H; try discriminate H.
  rewrite (decodeDomainName_extend _ extra _ _ _ E). cbn [bind].
  apply decodeDomainName_cursor in E. pose proof (len_nonneg extra).
  pose proof (Uint16_nonneg (slice data (c + 8) (c + 10))) as Hrd.
  revert H. rewrite len_app.
  destruct (Z.ltb_spec (len data) (c + 10)); intros Hd; [discriminate Hd|].
  destruct (Z.ltb_spec (len data + len extra) (c + 10)); [lia|].
  rewrite !(slice_app_l data extra) by lia.
  revert Hd.
  destruct (Z.ltb_spec (len data)
              (c + 10 + Uint16 (slice data (c + 8) (c + 10))));
    intros Hd; [discriminate Hd|].
  destruct (Z.ltb_spec (len data + len extra)
              (c + 10 + Uint16 (slice data (c + 8) (c + 10)))); [lia|].
  rewrite !(slice_app_l data extra) by lia. exact Hd.
Qed.

Lemma deserializeRecords_extend (data extra : bytes) :
  forall (n : nat) (o : Z) (rrs : list ResourceRecord) (o' : Z),
    deserializeRecords n data o = Ok (rrs, o') ->
    deserializeRecords n (data ++ extra) o = Ok (rrs, o').
Proof.
  induction n as [|n IH]; intros o rrs o' H; cbn [deserializeRecords] in *;
    [exact H|].
  destruct (deserializeResourceRecord data o) as [[rr o1]| | |] eqn:E1;
    cbn [bind] in H; try discriminate H.
  destruct (deserializeRecords n data o1) as [[rrs1 o2]| | |] eqn:E2;
    cbn [bind] in H; try discriminate H.
  rewrite (deserializeResourceRecord_extend _ extra _ _ _ E1). cbn [bind].
  rewrite (IH _ _ _ E2). cbn [bind]. exact H.
Qed.

Lemma deserializeHeader_extend (data extra : bytes) :
  12 <= len data ->
  deserializeHeader (data ++ extra) = deserializeHeader data.
Proof.
  intros Hlen. unfold deserializeHeader.
  rewrite !(slice_app_l data extra) by lia. reflexivity.
Qed.

Lemma Deserialize_extend (data extra : bytes) (p : Packet) :
  Deserialize data = Ok p -> Deserialize (data ++ extra) = Ok p.
Proof.
  intros H. apply Deserialize_ok in H.
  destruct H as (Hlen & Hh & o1 & o2 & o3 & o4 & Hq & Han & Hau & Had).
  unfold Deserialize. cbv zeta. pose proof (len_nonneg extra).
  rewrite len_app. destruct (Z.ltb_spec (len data + len extra) 12); [lia|].
  rewrite deserializeHeader_extend by exact Hlen. rewrite <- Hh.
  rewrite (deserializeQuestion_extend _ extra _ _ _ Hq). cbn [bind].
  rewrite (deserializeRecords_extend _ extra _ _ _ _ Han). cbn [bind].
  rewrite (deserializeRecords_extend _ extra _ _ _ _ Hau). cbn [bind].
  rewrite (deserializeRecords_extend _ extra _ _ _ _ Had). cbn [bind].
  destruct p; reflexivity.
Qed.

(** X12. Bytes behind a message do not matter: when [decodeDomainName]
    returns a name for a buffer, or [Deserialize] a packet, it returns the
    same for the buffer with any bytes added at its end.  The size of the
    message is not compared with the size of the buffer. *)
Theorem trailing_bytes_ignored (data extra : bytes) :
  (forall (o : Z) (nm : string) (c : Z),
      decodeDomainName data o = Ok (nm, c) ->
      decodeDomainName (data ++ extra) o = Ok (nm, c)) /\
  (forall p : Packet,
      Deserialize data = Ok p -> Deserialize (data ++ extra) = Ok p).
Proof.
  split.
  - intros o nm c. apply decodeDomainName_extend.
  - intros p. apply Deserialize_extend.
Qed.

Lemma trailing_bytes_ignored_witness :
  Deserialize (compressed_answer ++ hex [0xDE; 0xAD])
  = Deserialize compressed_answer.
Proof.
  destruct (Deserialize compressed_answer) as [p| | |] eqn:E;
    try (vm_compute in E; discriminate E).
  exact (proj2 (trailing_bytes_ignored compressed_answer (hex [0xDE; 0xAD]))
               p E).
Defined.

(** ** Messages cut short *)

(** The stages of [Deserialize] on the bytes of a well-formed packet: each
    ends where the next piece begins, the last at the end of the bytes. *)
Lemma packet_bytes_stages (p : Packet) :
  packet_ok p ->
  let data := packet_bytes p in
  let o1 := 12 + len (question_bytes (PQuestion p)) in
  let o2 := o1 + len (records_bytes (Answer p)) in
  let o3 := o2 + len (records_bytes (Authority p)) in
  deserializeQuestion data 12 = Ok (PQuestion p, o1) /\
  deserializeRecords (List.length (Answer p)) data o1 = Ok (Answer p, o2) /\
  deserializeRecords (List.length (Authority p)) data o2
  = Ok (Authority p, o3) /\
  deserializeRecords (List.length (Additional p)) data o3
  = Ok (Additional p, len data).
Proof.
  intros (Hh & Hq & Han & Hau & Had & _). cbv zeta. unfold packet_bytes.
  set (hb := serializeHeader (PHeader p)).
  set (qb := question_bytes (PQuestion p)).
  set (anb := records_bytes (Answer p)).
  set (aub := records_bytes (Authority p)).
  set (adb := records_bytes (Additional p)).
  assert (Hhb : len hb = 12) by reflexivity.
  pose proof (deserializeQuestion_at (PQuestion p) hb
                (anb ++ aub ++ adb) Hq) as Eq.
  fold qb in Eq. rewrite Hhb in Eq.
  pose proof (deserializeRecords_at (Answer p) (aub ++ adb)
                (hb ++ qb) Han) as Ean.
  fold anb in Ean. rewrite <- !app_assoc, len_app, Hhb in Ean.
  pose proof (deserializeRecords_at (Authority p) adb
                (hb ++ qb ++ anb) Hau) as Eau.
  fold aub in Eau. rewrite <- !app_assoc, !len_app, Z.add_assoc, Hhb in Eau.
  pose proof (deserializeRecords_at (Additional p) []
                (hb ++ qb ++ anb ++ aub) Had) as Ead.
  fold adb in Ead.
  rewrite app_nil_r, <- !app_assoc, !len_app, !Z.add_assoc, Hhb in Ead.
  rewrite !len_app, Hhb, !Z.add_assoc.
  repeat split; assumption.
Qed.

(** X13. A well-formed message that is cut short does not deserialize:
    for every proper prefix of the bytes [Serialize] writes for a
    well-formed packet, [Deserialize] returns an error, one of "packet too
    short", "buffer overflow" and "too many jumps", and never a packet. *)
Theorem Deserialize_cut_message (p : Packet) (n : nat) :
  packet_ok p -> (n < List.length (packet_bytes p))%nat ->
  exists e : error, Deserialize (firstn n (packet_bytes p)) = Err e.
Proof.
  intros Hp Hn.
  set (buf := packet_bytes p) in *. set (cut := firstn n buf).
  assert (Hbuf : buf = cut ++ skipn n buf)
    by (symmetry; apply firstn_skipn).
  assert (Hcut : len cut < len buf).
  { unfold cut, len. rewrite length_firstn. lia. }
  pose proof (Deserialize_decoded cut) as Hout.
  destruct (Deserialize cut) as [p'|e| |] eqn:E; cbn [decoded] in Hout;
    try contradiction; [exfalso | exists e; reflexivity].
  pose proof (Deserialize_extend cut (skipn n buf) p' E) as Ebuf.
  rewrite <- Hbuf in Ebuf. unfold buf in Ebuf.
  pose proof (Deserialize_packet_bytes p [] Hp) as Ert.
  rewrite app_nil_r, Ebuf in Ert. inversion Ert; subst p'. clear Ert.
  apply Deserialize_ok in E.
  destruct E as (Hlen & Hh & o1 & o2 & o3 & o4 & Hq & Han & Hau & Had).
  pose proof (deserializeQuestion_offset _ _ _ _ Hq) as B1.
  assert (B2 : 0 <= o2 <= len cut)
    by (apply (deserializeRecords_offset cut _ o1 _ _ ltac:(lia) Han)).
  assert (B3 : 0 <= o3 <= len cut)
    by (apply (deserializeRecords_offset cut _ o2 _ _ ltac:(lia) Hau)).
  assert (B4 : 0 <= o4 <= len cut)
    by (apply (deserializeRecords_offset cut _ o3 _ _ ltac:(lia) Had)).
  apply (deserializeQuestion_extend _ (skipn n buf)) in Hq.
  apply (deserializeRecords_extend _ (skipn n buf)) in Han, Hau, Had.
  rewrite <- Hbuf in Hq, Han, Hau, Had.
  destruct Hp as (Hh' & Hq' & Han' & Hau' & Had' & Can & Cau & Cad).
  rewrite Can, Cau, Cad, !len_records_nat in *.
  pose proof (packet_bytes_stages p
                (conj Hh' (conj Hq' (conj Han' (conj Hau' (conj Had'
                  (conj Can (conj Cau Cad)))))))) as S.
  cbv zeta in S. fold buf in S. destruct S as (S1 & S2 & S3 & S4).
  assert (E1 : o1 = 12 + len (question_bytes (PQuestion p)))
    by congruence.
  subst o1.
  assert (E2 : o2 = 12 + len (question_bytes (PQuestion p))
                    + len (records_bytes (Answer p))) by congruence.
  subst o2.
  assert (E3 : o3 = 12 + len (question_bytes (PQuestion p))
                    + len (records_bytes (Answer p))
                    + len (records_bytes (Authority p))) by congruence.
  subst o3.
  assert (E4 : o4 = len buf) by congruence.
  lia.
Qed.

Lemma Deserialize_cut_message_witness :
  exists e : error,
    Deserialize (firstn 40 (packet_bytes sample_response)) = Err e.
Proof.
  apply (Deserialize_cut_message sample_response 40).
  - exact sample_response_ok.
  - vm_compute. lia.
Defined.

(** ** Decoding what encodeDomainName wrote, for every name *)

Lemma wire_labels_leading (labels : list string) :
  exists rest : bytes,
    wire_labels labels ++ [x00]
    = wire_labels (leading labels) ++ x00 :: rest.
Proof.
  induction labels as [|l ls IH]; cbn [leading wire_labels].
  - exists []. reflexivity.
  - destruct (Z.eqb_spec (slen l) 0) as [H0|H0].
    + destruct l; [|cbn in H0; lia].
      exists (wire_labels ls ++ [x00]). reflexivity.
    + destruct IH as [rest IH]. exists rest.
      cbn [wire_labels]. rewrite <- !app_assoc. rewrite IH. reflexivity.
Qed.

Lemma leading_ok (labels : list string) :
  Forall (fun l => slen l <= 63) labels ->
  Forall (fun l => 1 <= slen l <= 63) (leading labels).
Proof.
  induction 1 as [|l ls Hl Hls IH]; cbn [leading]; [constructor|].
  destruct (Z.eqb_spec (slen l) 0); constructor; [|exact IH].
  unfold slen in *. lia.
Qed.

Lemma dotted_concat (l : string) (ls : list string) :
  dotted (l :: ls) = (String.concat "." (l :: ls) ++ ".")%string.
Proof.
  revert l. induction ls as [|l' ls IH]; intros l.
  - reflexivity.
  - change (dotted (l :: l' :: ls)) with (l ++ "." ++ dotted (l' :: ls))%string.
    rewrite IH.
    change (String.concat "." (l :: l' :: ls))
      with (l ++ "." ++ String.concat "." (l' :: ls))%string.
    rewrite !string_append_assoc. reflexivity.
Qed.

Lemma decode_finish_labels (o j : Z) (jd : bool) (labels : list string) :
  decode_finish (mkDstate o j jd (dotted labels))
  = Ok (name_of_labels labels, o).
Proof.
  destruct labels as [|l ls]; [reflexivity|].
  rewrite dotted_concat, decode_finish_dotted. reflexivity.
Qed.

(** X14. What comes back from the bytes [encodeDomainName] wrote, for
    every name it accepts: the labels before the first empty label, with
    dots between them, and "." when the first label is empty; the cursor
    stands behind the zero byte that ends them.  So a name with labels of
    1 to 63 bytes comes back whole, a trailing dot is lost with one byte
    left unread, and the names "." and "" both come back as "." with
    cursor 1. *)
Theorem encode_decode_leading (nm : string) :
  encodable nm = true ->
  exists enc : bytes,
    encodeDomainName nm = Ok enc /\
    decodeDomainName enc 0
    = Ok (name_of_labels (leading (labels_of nm)),
          len (wire_labels (leading (labels_of nm))) + 1).
Proof.
  intros Hen. exists (wire_name nm). split.
  - rewrite encodeDomainName_closed, Hen. reflexivity.
  - unfold wire_name.
    destruct (wire_labels_leading (labels_of nm)) as [rest ->].
    apply decodeDomainName_of_loop
      with (n := S (List.length (leading (labels_of nm)))); [|discriminate].
    change (wire_labels (leading (labels_of nm)) ++ x00 :: rest)
      with ([] ++ wire_labels (leading (labels_of nm)) ++ x00 :: rest).
    rewrite decode_loop_labels; cbn [offset jumps jumped name];
      try reflexivity; [| |unfold maxJumps; lia].
    + cbn [append]. rewrite decode_finish_labels.
      autorewrite with len. reflexivity.
    + apply leading_ok. unfold encodable in Hen.
      rewrite forallb_forall in Hen. apply Forall_forall.
      intros l Hl. apply Z.leb_le. apply Hen. exact Hl.
Qed.

Lemma encode_decode_leading_witness :
  exists enc : bytes,
    encodeDomainName "example.com." = Ok enc /\
    decodeDomainName enc 0
    = Ok (name_of_labels (leading (labels_of "example.com.")),
          len (wire_labels (leading (labels_of "example.com."))) + 1).
Proof.
  apply (encode_decode_leading "example.com.").
  vm_compute. reflexivity.
Defined.

Example encode_decode_trailing_dot :
  name_of_labels (leading (labels_of "example.com.")) = "example.com"%string
  /\ len (wire_labels (leading (labels_of "example.com."))) + 1 = 13
  /\ len (wire_name "example.com.") = 14.
Proof. repeat split; vm_compute; reflexivity. Qed.

(** ** Writing again what Deserialize returned *)

Lemma Uint32_range (b : bytes) : 0 <= Uint32 b < 2 ^ 32.
Proof.
  unfold Uint32. rewrite !Z.shiftl_mul_pow2 by lia.
  pose proof (byte_val_range (index b 0)) as H0.
  pose proof (byte_val_range (index b 1)) as H1.
  pose proof (byte_val_range (index b 2)) as H2.
  pose proof (byte_val_range (index b 3)) as H3.
  set (a0 := byte_val (index b 3)) in *.
  set (a1 := byte_val (index b 2)) in *.
  set (a2 := byte_val (index b 1)) in *.
  set (a3 := byte_val (index b 0)) in *.
  change (2 ^ 8) with 256. change (2 ^ 16) with 65536.
  change (2 ^ 24) with 16777216. change (2 ^ 32) with 4294967296.
  assert (E1 : Z.lor a0 (a1 * 256) = a1 * 256 + a0).
  { rewrite Z.lor_comm. apply (lor_add _ _ 8);
      [lia | apply Z.mod_mul; lia | change (2 ^ 8) with 256; lia]. }
  rewrite E1.
  assert (E2 : Z.lor (a1 * 256 + a0) (a2 * 65536)
               = a2 * 65536 + (a1 * 256 + a0)).
  { rewrite Z.lor_comm. apply (lor_add _ _ 16);
      [lia | change 65536 with (2 ^ 16); apply Z.mod_mul; lia
       | change (2 ^ 16) with 65536; lia]. }
  rewrite E2.
  assert (E3 : Z.lor (a2 * 65536 + (a1 * 256 + a0)) (a3 * 16777216)
               = a3 * 16777216 + (a2 * 65536 + (a1 * 256 + a0))).
  { rewrite Z.lor_comm. apply (lor_add _ _ 24);
      [lia | change 16777216 with (2 ^ 24); apply Z.mod_mul; lia
       | change (2 ^ 24) with 16777216; lia]. }
  rewrite E3. lia.
Qed.

Lemma deserializeResourceRecord_fields (data : bytes) (o : Z)
  (rr : ResourceRecord) (o' : Z) :
  deserializeResourceRecord data o = Ok (rr, o') -> record_fields_ok rr.
Proof.
  intros H. pose proof (deserializeResourceRecord_ok _ _ _ _ H) as [Hl _].
  unfold deserializeResourceRecord in H.
  destruct (decodeDomainName data o) as [[nm c]| | |];
    cbn [bind] in H; try discriminate H.
  revert H. destruct_tests; intros Hd; try discriminate Hd.
  inversion Hd; subst rr. cbn [RData RDLength] in Hl.
  unfold record_fields_ok, u16, u32. cbn [Type_ Class TTL RDLength RData].
  repeat split; try apply Uint16_range; try apply Uint32_range;
    symmetry; exact Hl.
Qed.

Lemma deserializeRecords_fields (data : bytes) :
  forall (n : nat) (o : Z) (rrs : list ResourceRecord) (o' : Z),
    deserializeRecords n data o = Ok (rrs, o') ->
    Forall record_fields_ok rrs.
Proof.
  induction n as [|n IH]; intros o rrs o' H; cbn [deserializeRecords] in H.
  - inversion H; subst. constructor.
  - destruct (deserializeResourceRecord data o) as [[rr o1]| | |] eqn:E1;
      cbn [bind] in H; try discriminate H.
    destruct (deserializeRecords n data o1) as [[rrs1 o2]| | |] eqn:E2;
      cbn [bind] in H; try discriminate H.
    inversion H; subst rrs o'; clear H.
    constructor; [eapply deserializeResourceRecord_fields; exact E1
                 | eapply IH; exact E2].
Qed.

Lemma record_ok_of_fields (rrs : list ResourceRecord) :
  Forall record_fields_ok rrs -> Forall (fun rr => name_ok (Name rr)) rrs ->
  Forall record_ok rrs.
Proof.
  intros Hf Hn. rewrite Forall_forall in *. intros rr Hin.
  specialize (Hf rr Hin). specialize (Hn rr Hin).
  unfold record_ok, record_fields_ok in *. tauto.
Qed.

(** A packet that [Deserialize] returns is well formed as soon as its
    names are. *)
Lemma Deserialize_packet_ok (data : bytes) (p : Packet) :
  Deserialize data = Ok p -> names_ok p -> packet_ok p.
Proof.
  intros H (Hqn & Hrn).
  pose proof (Deserialize_ok _ _ H)
    as (_ & Hh & o1 & o2 & o3 & o4 & Hq & Han & Hau & Had).
  apply Forall_app in Hrn. destruct Hrn as [Hn1 Hrn].
  apply Forall_app in Hrn. destruct Hrn as [Hn2 Hn3].
  pose proof (deserializeRecords_ok _ _ _ _ _ Han) as [Lan _].
  pose proof (deserializeRecords_ok _ _ _ _ _ Hau) as [Lau _].
  pose proof (deserializeRecords_ok _ _ _ _ _ Had) as [Lad _].
  pose proof (deserializeHeader_in_range data) as Hr. rewrite <- Hh in Hr.
  pose proof Hr as (_ & _ & _ & _ & _ & Ran & Rau & Rad).
  unfold packet_ok. split; [exact Hr|]. split.
  - unfold question_ok. split; [exact Hqn|].
    unfold deserializeQuestion in Hq.
    destruct (decodeDomainName data 12) as [[nm c]| | |];
      cbn [bind] in Hq; try discriminate Hq.
    revert Hq. destruct_tests; intros Hq; try discriminate Hq.
    inversion Hq as [[Hp Ho]]. cbn [QType QClass]. unfold u16.
    split; apply Uint16_range.
  - repeat split;
      try (apply record_ok_of_fields;
           [eapply deserializeRecords_fields; eassumption | assumption]);
      unfold len_records; lia.
Qed.

(** X15. Writing a decoded packet again is stable: a packet that
    [Deserialize] has returned and whose names have labels of 1 to 63
    bytes is well formed (fields within their widths, every RDLength the
    length of its payload, the record counts the lengths of the sections),
    so [Serialize] accepts it, and [Deserialize] returns the same packet
    from the bytes written, which hold no compression pointer. *)
Theorem Deserialize_Serialize_stable (data : bytes) (p : Packet) :
  Deserialize data = Ok p -> names_ok p ->
  packet_ok p /\
  exists buf : bytes, Serialize p = Ok buf /\ Deserialize buf = Ok p.
Proof.
  intros H Hn. pose proof (Deserialize_packet_ok _ _ H Hn) as Hp.
  split; [exact Hp|]. exists (packet_bytes p). split.
  - rewrite Serialize_closed, packet_ok_encodable by exact Hp. reflexivity.
  - rewrite <- (app_nil_r (packet_bytes p)).
    apply Deserialize_packet_bytes. exact Hp.
Qed.

Lemma Deserialize_Serialize_stable_witness :
  exists p : Packet,
    Deserialize compressed_answer = Ok p /\ packet_ok p /\
    exists buf : bytes, Serialize p = Ok buf /\ Deserialize buf = Ok p.
Proof.
  destruct (Deserialize compressed_answer) as [p| | |] eqn:E;
    try (vm_compute in E; discriminate E).
  exists p. split; [reflexivity|].
  apply (Deserialize_Serialize_stable compressed_answer p E).
  vm_compute in E. inversion E; subst p.
  unfold names_ok, name_ok. cbn [PQuestion QName Answer Authority Additional app].
  split; repeat constructor; vm_compute; discriminate.
Defined.

Lemma question_record_roundtrip_witness :
  exists b : bytes,
    serializeQuestion (mkQuestion "example.com" 1 1) = Ok b /\
    deserializeQuestion (hex [0; 0; 0] ++ b ++ hex [0xFF]) (len (hex [0; 0; 0]))
    = Ok (mkQuestion "example.com" 1 1, len (hex [0; 0; 0]) + len b).
Proof.
  apply (proj1 question_record_roundtrip (mkQuestion "example.com" 1 1)
           (hex [0; 0; 0]) (hex [0xFF])).
  unfold question_ok, name_ok, u16. cbn [QName QType QClass].
  repeat split; repeat constructor; vm_compute; discriminate || reflexivity.
Defined.
